(** * The to-do store, its command handlers and its HTTP routes

    A shallow embedding of the server side of the to-do boilerplate:
    - [Todos]    : src/server/services/todos.ts, the in-memory store;
    - [Handlers] : src/server/create-server.ts, the MCP tool handlers;
    - [Http]     : src/server/index.ts, the Express routes.

    Conventions.  The store is a JavaScript [Map], which iterates in insertion
    order: it is an association list, [set] on a present key replaces the
    value where it stands and [set] on a new key appends.  [Date.now()] is an
    input of the environment: every call site takes the reading it gets as an
    argument of type [Z].  Strings are [string]; one element stands for one
    UTF-16 code unit, so [String.length] is the [.length] of the source. *)

From Stdlib Require Import ZArith Lia.
From stdpp Require Import base list strings pretty sorting.

Local Open Scope Z_scope.
Local Open Scope string_scope.
Local Open Scope list_scope.

(** ** services/todos.ts *)

Module Todos.

Record Todo : Type := mkTodo {
  id : string;
  title : string;
  completed : bool;
  createdAt : Z;
}.

#[global] Instance Todo_eq_dec : EqDecision Todo.
Proof. solve_decision. Defined.

(** [const todos: Map<string, Todo>]: entries in insertion order. *)
Definition Store : Type := list (string * Todo).

Section JsMap.
Context {V : Type}.
Implicit Types (m : list (string * V)) (k : string) (v : V).

Fixpoint map_get k m : option V :=
  match m with
  | [] => None
  | (k', v') :: m' => if decide (k' = k) then Some v' else map_get k m'
  end.

Fixpoint map_set k v m : list (string * V) :=
  match m with
  | [] => [(k, v)]
  | (k', v') :: m' =>
      if decide (k' = k) then (k', v) :: m' else (k', v') :: map_set k v m'
  end.

(** [Map.prototype.delete]: the boolean tells whether an entry was removed. *)
Fixpoint map_delete k m : bool * list (string * V) :=
  match m with
  | [] => (false, [])
  | (k', v') :: m' =>
      if decide (k' = k) then (true, m')
      else let '(b, r) := map_delete k m' in (b, (k', v') :: r)
  end.

Definition map_values m : list V := m.*2.
Definition map_keys m : list string := m.*1.
Definition map_size m : nat := length m.
End JsMap.

(** [Array.prototype.sort((a, b) => a.createdAt - b.createdAt)].  The
    comparator is a consistent order on the integer timestamps and ECMAScript
    requires the sort to be stable, so the result is the stable ascending
    rearrangement, which insertion from the right computes. *)
Definition compareFn (a b : Todo) : Z := createdAt a - createdAt b.

Fixpoint sort_insert (a : Todo) (l : list Todo) : list Todo :=
  match l with
  | [] => [a]
  | b :: l' => if decide (compareFn a b <= 0) then a :: b :: l'
               else b :: sort_insert a l'
  end.

Definition array_sort (l : list Todo) : list Todo := foldr sort_insert [] l.

(** [Number.prototype.toString()] of an integer timestamp: its decimal
    digits, with a leading minus sign below zero. *)
Definition toString (n : Z) : string := pretty n.

Definition sampleTodos (now1 now2 now3 : Z) : list Todo :=
  [ mkTodo "1" "Learn about MCP" false now1;
    mkTodo "2" "Build a ChatGPT app" false now2;
    mkTodo "3" "Deploy to Vercel" false now3 ].

Definition initializeSampleTodos (now1 now2 now3 : Z) (todos : Store) : Store :=
  foldl (fun m todo => map_set (id todo) todo m) todos (sampleTodos now1 now2 now3).

(** Module initialisation: the map is created empty and the guard
    [if (todos.size === 0)] runs the initialiser. *)
Definition on_import (now1 now2 now3 : Z) : Store :=
  let todos : Store := [] in
  if decide (map_size todos = 0%nat) then initializeSampleTodos now1 now2 now3 todos
  else todos.

Definition getAllTodos (todos : Store) : list Todo :=
  array_sort (map_values todos).

Definition getTodoById (id : string) (todos : Store) : option Todo :=
  map_get id todos.

(** [now_id] and [now_created] are the two readings of [Date.now()], in the
    order the function takes them. *)
Definition createTodo (now_id now_created : Z) (title : string) (todos : Store)
  : Todo * Store :=
  let id := toString now_id in
  let todo := {| id := id; title := title; completed := false;
                 createdAt := now_created |} in
  (todo, map_set id todo todos).

(** [Partial<Pick<Todo, "title" | "completed">>] with every present key holding
    a value of its declared type: [None] is an absent key.  This is what
    [toggleTodo] passes.  The update objects of the PUT route, where a key can
    be present and hold [undefined] or a value of another type, are
    [Runtime.Patch] below. *)
Record Updates : Type := mkUpdates {
  u_title : option string;
  u_completed : option bool;
}.

(** [{ ...todo, ...updates }] *)
Definition spread (todo : Todo) (updates : Updates) : Todo :=
  {| id := id todo;
     title := match u_title updates with Some x => x | None => title todo end;
     completed := match u_completed updates with Some x => x | None => completed todo end;
     createdAt := createdAt todo |}.

(** The result [None] is the source's [null]. *)
Definition updateTodo (id : string) (updates : Updates) (todos : Store)
  : option Todo * Store :=
  match map_get id todos with
  | None => (None, todos)
  | Some todo =>
      let updated := spread todo updates in
      (Some updated, map_set id updated todos)
  end.

Definition deleteTodo (id : string) (todos : Store) : bool * Store :=
  map_delete id todos.

Definition toggleTodo (id : string) (todos : Store) : option Todo * Store :=
  match map_get id todos with
  | None => (None, todos)
  | Some todo =>
      updateTodo id {| u_title := None; u_completed := Some (negb (completed todo)) |} todos
  end.

End Todos.

(** ** Values received from outside

    The arguments of a tool call and the body of a request are parsed JSON.
    The code modelled here only tests the type of a number, so integers stand
    for all numbers. *)

Module Js.

#[local] Set Warnings "-register-all".

Inductive jsval : Type :=
  | JUndefined
  | JNull
  | JBool (b : bool)
  | JNum (n : Z)
  | JStr (s : string)
  | JArr (items : list jsval)
  | JObj (props : list (string * jsval)).

(** [v.k], [undefined] when the property is missing. *)
Definition prop (k : string) (v : jsval) : jsval :=
  match v with
  | JObj props => default JUndefined (Todos.map_get k props)
  | _ => JUndefined
  end.

(** [!!v] *)
Definition truthy (v : jsval) : bool :=
  match v with
  | JUndefined | JNull => false
  | JBool b => b
  | JNum n => negb (n =? 0)%Z
  | JStr s => negb (String.eqb s EmptyString)
  | JArr _ | JObj _ => true
  end.

Definition typeof (v : jsval) : string :=
  match v with
  | JUndefined => "undefined"
  | JNull | JArr _ | JObj _ => "object"
  | JBool _ => "boolean"
  | JNum _ => "number"
  | JStr _ => "string"
  end.

(** The double quote character, code 34. *)
Definition dquote : string := String (Ascii.ascii_of_nat 34) EmptyString.

(** [`${n} ${word}${n !== 1 ? "s" : ""}`] for an array length [n]. *)
Definition plural (n : nat) : string :=
  if decide (n = 1%nat) then EmptyString else "s".

End Js.

(** ** create-server.ts: schemas and tool handlers *)

Module Handlers.
Import Todos Js.

(** *** The zod schemas used by the handlers *)

Inductive PathItem : Type := key (k : string) | index (i : nat).

Inductive ZodIssue : Type :=
  | invalid_type (path : list PathItem)
  | too_small (path : list PathItem) (message : string)
  | too_big (path : list PathItem) (message : string).

(** [inl issues] is a thrown [ZodError]; all issues of a value are collected. *)
Definition Parsed (A : Type) : Type := list ZodIssue + A.

Definition both {A B : Type} (a : Parsed A) (b : Parsed B) : Parsed (A * B) :=
  match a, b with
  | inr x, inr y => inr (x, y)
  | inl e, inr _ => inl e
  | inr _, inl e => inl e
  | inl e1, inl e2 => inl (e1 ++ e2)
  end.

Definition pmap {A B : Type} (f : A -> B) (a : Parsed A) : Parsed B :=
  match a with inl e => inl e | inr x => inr (f x) end.

(** [z.string()] *)
Definition z_string (path : list PathItem) (v : jsval) : Parsed string :=
  match v with JStr s => inr s | _ => inl [invalid_type path] end.

Definition z_boolean (path : list PathItem) (v : jsval) : Parsed bool :=
  match v with JBool b => inr b | _ => inl [invalid_type path] end.

Definition z_number (path : list PathItem) (v : jsval) : Parsed Z :=
  match v with JNum n => inr n | _ => inl [invalid_type path] end.

(** [z.string().min(1, "Title cannot be empty")
              .max(200, "Title must be 200 characters or fewer")] *)
Definition z_title (path : list PathItem) (v : jsval) : Parsed string :=
  match v with
  | JStr s =>
      if decide (String.length s < 1)%nat
      then inl [too_small path "Title cannot be empty"]
      else if decide (200 < String.length s)%nat
      then inl [too_big path "Title must be 200 characters or fewer"]
      else inr s
  | _ => inl [invalid_type path]
  end.

(** [z.object({ title: ... })] *)
Definition add_schema (raw : jsval) : Parsed string :=
  match raw with
  | JObj _ => z_title [key "title"] (prop "title" raw)
  | _ => inl [invalid_type []]
  end.

(** [z.object({ id: z.string() })] *)
Definition id_schema (raw : jsval) : Parsed string :=
  match raw with
  | JObj _ => z_string [key "id"] (prop "id" raw)
  | _ => inl [invalid_type []]
  end.

(** [z.object({ id: z.string(), title: z.string(), completed: z.boolean(),
                createdAt: z.number() })] *)
Definition todo_schema (path : list PathItem) (v : jsval) : Parsed Todo :=
  match v with
  | JObj _ =>
      pmap (fun '(i, t, c, n) => mkTodo i t c n)
        (both (both (both (z_string (path ++ [key "id"]) (prop "id" v))
                          (z_string (path ++ [key "title"]) (prop "title" v)))
                    (z_boolean (path ++ [key "completed"]) (prop "completed" v)))
              (z_number (path ++ [key "createdAt"]) (prop "createdAt" v)))
  | _ => inl [invalid_type path]
  end.

(** [z.array(item)]: the elements from position [i] on. *)
Fixpoint z_array_from {A : Type} (item : list PathItem -> jsval -> Parsed A)
    (path : list PathItem) (i : nat) (items : list jsval) : Parsed (list A) :=
  match items with
  | [] => inr []
  | v :: rest =>
      pmap (fun '(x, xs) => x :: xs)
        (both (item (path ++ [index i]) v) (z_array_from item path (S i) rest))
  end.

Definition z_array {A : Type} (item : list PathItem -> jsval -> Parsed A)
    (path : list PathItem) (v : jsval) : Parsed (list A) :=
  match v with
  | JArr items => z_array_from item path 0 items
  | _ => inl [invalid_type path]
  end.

(** [z.object({ todos: z.array(z.object({...})) })] *)
Definition save_schema (raw : jsval) : Parsed (list Todo) :=
  match raw with
  | JObj _ => z_array todo_schema [key "todos"] (prop "todos" raw)
  | _ => inl [invalid_type []]
  end.

(** *** Tool results *)

Record StructuredContent : Type := mkStructured {
  todos : list Todo;
  newTodo : option Todo;
  updatedTodo : option Todo;
  deletedId : option string;
}.

(** [content] lists the texts of the [{ type: "text", text }] items;
    [isError] is [false] where the source leaves the key out. *)
Record ToolResult : Type := mkResult {
  content : list string;
  structuredContent : option StructuredContent;
  isError : bool;
}.

Inductive Outcome : Type :=
  | Return (r : ToolResult)
  | Throw (issues : list ZodIssue).

Definition not_found (id : string) : ToolResult :=
  {| content := ["To-do item with ID " +:+ dquote +:+ id +:+ dquote +:+ " not found."];
     structuredContent := None;
     isError := true |}.

(** [todos.add_todo] *)
Definition add_todo (now_id now_created : Z) (rawParams : jsval) (store : Store)
  : Outcome * Store :=
  match add_schema rawParams with
  | inl issues => (Throw issues, store)
  | inr title =>
      let '(todo, store) := createTodo now_id now_created title store in
      let todos := getAllTodos store in
      (Return {| content := ["Added to-do: " +:+ dquote +:+ title +:+ dquote];
                 structuredContent :=
                   Some {| todos := todos; newTodo := Some todo;
                           updatedTodo := None; deletedId := None |};
                 isError := false |}, store)
  end.

(** [todos.toggle_todo] *)
Definition toggle_todo (rawParams : jsval) (store : Store) : Outcome * Store :=
  match id_schema rawParams with
  | inl issues => (Throw issues, store)
  | inr id =>
      match toggleTodo id store with
      | (None, store) => (Return (not_found id), store)
      | (Some updated, store) =>
          let todos := getAllTodos store in
          (Return {| content :=
                       ["To-do " +:+ dquote +:+ title updated +:+ dquote +:+ " marked as "
                        +:+ (if completed updated then "completed" else "incomplete")
                        +:+ "."];
                     structuredContent :=
                       Some {| todos := todos; newTodo := None;
                               updatedTodo := Some updated; deletedId := None |};
                     isError := false |}, store)
      end
  end.

(** [todo?.title || id] *)
Definition title_or_id (todo : option Todo) (id : string) : string :=
  match todo with
  | Some t => if String.eqb (title t) EmptyString then id else title t
  | None => id
  end.

(** [todos.delete_todo] *)
Definition delete_todo (rawParams : jsval) (store : Store) : Outcome * Store :=
  match id_schema rawParams with
  | inl issues => (Throw issues, store)
  | inr id =>
      let todo := getTodoById id store in
      match deleteTodo id store with
      | (false, store) => (Return (not_found id), store)
      | (true, store) =>
          let todos := getAllTodos store in
          (Return {| content := ["Deleted to-do: " +:+ dquote +:+ title_or_id todo id +:+ dquote];
                     structuredContent :=
                       Some {| todos := todos; newTodo := None;
                               updatedTodo := None; deletedId := Some id |};
                     isError := false |}, store)
      end
  end.

(** [todos.save_todo_state] *)
Definition save_todo_state (rawParams : jsval) (store : Store) : Outcome * Store :=
  match save_schema rawParams with
  | inl issues => (Throw issues, store)
  | inr todosToSave =>
      let allTodos := getAllTodos store in
      let n := length todosToSave in
      (Return {| content := ["Saved " +:+ pretty n +:+ " todo" +:+ plural n +:+ "."];
                 structuredContent :=
                   Some {| todos := allTodos; newTodo := None;
                           updatedTodo := None; deletedId := None |};
                 isError := false |}, store)
  end.

(** [todos.show_todo_list]: its payload carries a [message] beside the list. *)
Record ShowContent : Type := mkShow {
  show_todos : list Todo;
  show_message : string;
}.

Record ShowResult : Type := mkShowResult {
  show_text : list string;
  show_structured : ShowContent;
}.

Definition show_todo_list (store : Store) : ShowResult * Store :=
  let todos := getAllTodos store in
  ({| show_text := ["To-do list is ready! You have " +:+ pretty (length todos)
                    +:+ " task" +:+ plural (length todos) +:+ "."];
      show_structured := {| show_todos := todos; show_message := "To-do list ready" |} |},
   store).

(** [todos.refresh_todos] *)
Definition refresh_todos (store : Store) : Outcome * Store :=
  let todos := getAllTodos store in
  (Return {| content := ["Refreshed " +:+ pretty (length todos) +:+ " todo"
                         +:+ plural (length todos) +:+ "."];
             structuredContent :=
               Some {| todos := todos; newTodo := None;
                       updatedTodo := None; deletedId := None |};
             isError := false |}, store).

End Handlers.

(** ** index.ts: the Express application *)

Module Http.
Import Todos Js.

Inductive Method : Type := GET | POST | PUT | PATCH | DELETE | HEAD | OPTIONS.

#[global] Instance Method_eq_dec : EqDecision Method.
Proof. solve_decision. Defined.

Inductive Body : Type :=
  | JsonRpcError (code : Z) (message : string)
      (* { jsonrpc: "2.0", error: { code, message }, id: null } *)
  | ErrorBody (error : string)   (* { error } *)
  | TodoBody (todo : Todo).

Record Response : Type := mkResponse { status : Z; body : Body }.

(** The handler reads the request only to log its method. *)
Definition methodNotAllowed (method : Method) : Response :=
  {| status := 405; body := JsonRpcError (-32000) "Method not allowed." |}.

(** What the application registers for the path [/mcp], in the order of
    registration: [app.options("*", cors())], [app.post("/mcp", ...)],
    [app.get("/mcp", methodNotAllowed)], [app.delete("/mcp", methodNotAllowed)].
    The other routes are under [/api/todos] and do not match this path. *)
Inductive McpHandler : Type := corsPreflight | transportHandleRequest | methodNotAllowedHandler.

Definition mcp_routes : list (Method * McpHandler) :=
  [ (OPTIONS, corsPreflight);
    (POST, transportHandleRequest);
    (GET, methodNotAllowedHandler);
    (DELETE, methodNotAllowedHandler) ].

(** Express matches a route on the request's method; a [HEAD] request is
    also matched by a [GET] route. *)
Definition handles_method (registered method : Method) : bool :=
  bool_decide (registered = method)
  || (bool_decide (method = HEAD) && bool_decide (registered = GET)).

(** The handler that answers a request on [/mcp]; [None] when no route
    matches, and the request is left to Express's final handler. *)
Definition mcp_dispatch (method : Method) : option McpHandler :=
  snd <$> List.find (fun r => handles_method (fst r) method) mcp_routes.

(** The response of the application's own code on [/mcp], where it is
    decided by this file: the transport's answer to a POST and the preflight
    answer of the cors package are produced outside of it. *)
Definition mcp_response (method : Method) : option Response :=
  match mcp_dispatch method with
  | Some methodNotAllowedHandler => Some (methodNotAllowed method)
  | _ => None
  end.

(** [app.post("/api/todos", ...)]; [body] holds the properties of [req.body],
    the object left there by [express.json()]. *)
Definition post_api_todos (now_id now_created : Z) (body : list (string * jsval))
    (store : Store) : Response * Store :=
  let title := prop "title" (JObj body) in
  if negb (truthy title) || negb (String.eqb (typeof title) "string")
  then ({| status := 400; body := ErrorBody "Title is required" |}, store)
  else
    match title with
    | JStr title =>
        let '(todo, store) := createTodo now_id now_created title store in
        ({| status := 200; body := TodoBody todo |}, store)
    | _ => ({| status := 400; body := ErrorBody "Title is required" |}, store)
    end.

End Http.
(** ** Vocabulary of the statements *)

Import Todos Js Handlers Http.

(** Ascending order of creation time. *)
Definition by_createdAt (a b : Todo) : Prop := createdAt a <= createdAt b.

(** A title the add schema accepts. *)
Definition valid_title (title : string) : Prop :=
  (1 <= String.length title <= 200)%nat.

(** The JSON object a client sends for a todo in a snapshot. *)
Definition todo_json (t : Todo) : jsval :=
  JObj [ ("id", JStr (id t)); ("title", JStr (title t));
         ("completed", JBool (completed t)); ("createdAt", JNum (createdAt t)) ].

(** ** index.ts: the REST routes under /api/todos

    [res.json(x)] answers with status 200 and the JSON text of [x]; the reply
    holds the JSON value. *)

Module Rest.

Record Reply : Type := mkReply { code : Z; json : jsval }.

Definition todo_not_found : Reply :=
  {| code := 404; json := JObj [("error", JStr "Todo not found")] |}.

(** [app.delete("/api/todos/:id", ...)] *)
Definition delete_api_todo (id : string) (store : Store) : Reply * Store :=
  match deleteTodo id store with
  | (false, store) => (todo_not_found, store)
  | (true, store) => ({| code := 200; json := JObj [("success", JBool true)] |}, store)
  end.

(** [app.post("/api/todos/:id/toggle", ...)] *)
Definition post_api_todo_toggle (id : string) (store : Store) : Reply * Store :=
  match toggleTodo id store with
  | (None, store) => (todo_not_found, store)
  | (Some updated, store) => ({| code := 200; json := todo_json updated |}, store)
  end.

End Rest.

Import Rest.

(** ** The PUT route, on the objects the running program holds

    [app.put("/api/todos/:id", ...)] hands [updateTodo] whatever the request
    body holds, and the types of todos.ts are erased when the program runs: the
    record it writes need not be a [Todo].  This module follows the same code
    of [updateTodo] on stored objects whose [title] and [completed] hold any
    value. *)

Module Runtime.

Record Obj : Type := mkObj {
  o_id : string;
  o_title : jsval;
  o_completed : jsval;
  o_createdAt : Z;
}.

Definition ObjStore : Type := list (string * Obj).

(** The update object: [None] is an absent key, [Some JUndefined] a key that
    is present and holds [undefined]. *)
Record Patch : Type := mkPatch {
  p_title : option jsval;
  p_completed : option jsval;
}.

(** [{ ...todo, ...updates }]: every key present in [updates] overwrites,
    whatever it holds. *)
Definition spread (todo : Obj) (updates : Patch) : Obj :=
  {| o_id := o_id todo;
     o_title := match p_title updates with Some v => v | None => o_title todo end;
     o_completed :=
       match p_completed updates with Some v => v | None => o_completed todo end;
     o_createdAt := o_createdAt todo |}.

Definition updateTodo (id : string) (updates : Patch) (todos : ObjStore)
  : option Obj * ObjStore :=
  match map_get id todos with
  | None => (None, todos)
  | Some todo =>
      let updated := spread todo updates in
      (Some updated, map_set id updated todos)
  end.

(** [JSON.stringify] leaves out a property that holds [undefined]. *)
Definition json_prop (k : string) (v : jsval) : list (string * jsval) :=
  match v with JUndefined => [] | _ => [(k, v)] end.

Definition obj_json (o : Obj) : jsval :=
  JObj ([("id", JStr (o_id o))] ++ json_prop "title" (o_title o)
        ++ json_prop "completed" (o_completed o)
        ++ [("createdAt", JNum (o_createdAt o))]).

(** [app.put("/api/todos/:id", ...)]; [body] holds the properties of
    [req.body].  The object literal [{ title, completed }] has both keys,
    each holding what the body holds under it, [undefined] when it holds
    nothing. *)
Definition put_api_todo (id : string) (body : list (string * jsval))
    (store : ObjStore) : Reply * ObjStore :=
  let title := prop "title" (JObj body) in
  let completed := prop "completed" (JObj body) in
  match updateTodo id {| p_title := Some title; p_completed := Some completed |} store with
  | (None, store) => (todo_not_found, store)
  | (Some updated, store) => ({| code := 200; json := obj_json updated |}, store)
  end.

(** A [Todo], a store of todos and a typed update object, as the running
    program holds them. *)
Definition of_todo (t : Todo) : Obj :=
  {| o_id := id t; o_title := JStr (title t); o_completed := JBool (completed t);
     o_createdAt := createdAt t |}.

Definition of_store (store : Store) : ObjStore :=
  (fun e => (fst e, of_todo (snd e))) <$> store.

Definition of_updates (updates : Updates) : Patch :=
  {| p_title := JStr <$> u_title updates;
     p_completed := JBool <$> u_completed updates |}.

End Runtime.


(** The keys of the map are pairwise distinct and every todo is stored under
    its own id. *)
Definition store_ok (store : Store) : Prop :=
  NoDup (map_keys store) /\ Forall (fun e => id (snd e) = fst e) store.

(** [{ ...first, ...second }] on two update objects. *)
Definition merge_updates (first second : Updates) : Updates :=
  {| u_title := match u_title second with Some x => Some x | None => u_title first end;
     u_completed :=
       match u_completed second with Some x => Some x | None => u_completed first end |}.

(** What [updateTodo id updates] does to one todo of the list. *)
Definition update_in_list (id : string) (updates : Updates) (t : Todo) : Todo :=
  if decide (Todos.id t = id) then spread t updates else t.

(** The fields of a JSON value agree with those of a todo. *)
Definition json_matches (v : jsval) (t : Todo) : Prop :=
  prop "id" v = JStr (id t)
  /\ prop "title" v = JStr (title t)
  /\ prop "completed" v = JBool (completed t)
  /\ prop "createdAt" v = JNum (createdAt t).

(** * Properties *)

(** ** The map operations *)

Section JsMapFacts.
Context {V : Type}.
Implicit Types (m : list (string * V)) (k : string) (v : V).

Lemma map_get_set_eq k v m : map_get k (map_set k v m) = Some v.
Proof.
  induction m as [|[k' v'] m IH]; simpl.
  - by rewrite decide_True.
  - destruct (decide (k' = k)) as [->|Hne]; simpl.
    + by rewrite decide_True.
    + by rewrite decide_False.
Qed.

Lemma map_get_set_ne k k' v m :
  k <> k' -> map_get k' (map_set k v m) = map_get k' m.
Proof.
  intros Hne. induction m as [|[k0 v0] m IH]; simpl.
  - by rewrite decide_False.
  - destruct (decide (k0 = k)) as [->|H0]; simpl.
    + by rewrite !decide_False.
    + by rewrite IH.
Qed.

Lemma map_set_get_id k v m : map_get k m = Some v -> map_set k v m = m.
Proof.
  induction m as [|[k' v'] m IH]; simpl; [done|].
  destruct (decide (k' = k)); intros H.
  - by inversion H.
  - by rewrite IH.
Qed.

Lemma map_set_set k v v' m : map_set k v (map_set k v' m) = map_set k v m.
Proof.
  induction m as [|[k0 v0] m IH]; simpl.
  - by rewrite decide_True.
  - destruct (decide (k0 = k)) as [->|H0]; simpl.
    + by rewrite decide_True.
    + by rewrite decide_False, IH.
Qed.

Lemma map_get_None_keys k m : map_get k m = None <-> k ∉ map_keys m.
Proof.
  unfold map_keys. induction m as [|[k' v'] m IH]; csimpl.
  - split; [intros _; apply not_elem_of_nil | done].
  - rewrite not_elem_of_cons. destruct (decide (k' = k)) as [->|Hne].
    + split; [done | by intros [? _]].
    + rewrite IH. split; [by intros ?; split | by intros [_ ?]].
Qed.

Lemma map_keys_set_present k v m :
  is_Some (map_get k m) -> map_keys (map_set k v m) = map_keys m.
Proof.
  unfold map_keys. induction m as [|[k' v'] m IH]; simpl.
  - by intros [? ?].
  - destruct (decide (k' = k)); csimpl; [done|].
    intros H. f_equal. by apply IH.
Qed.

Lemma map_set_absent k v m :
  map_get k m = None -> map_set k v m = m ++ [(k, v)].
Proof.
  induction m as [|[k' v'] m IH]; simpl; [done|].
  destruct (decide (k' = k)); [done|].
  intros H. by rewrite IH.
Qed.

Lemma map_size_set k v m :
  map_size (map_set k v m)
  = match map_get k m with Some _ => map_size m | None => S (map_size m) end.
Proof.
  unfold map_size. induction m as [|[k' v'] m IH]; simpl; [done|].
  destruct (decide (k' = k)); simpl; [done|].
  rewrite IH. by destruct (map_get k m).
Qed.

(** The keys of a map stay pairwise distinct. *)
Lemma map_set_NoDup k v m : NoDup (map_keys m) -> NoDup (map_keys (map_set k v m)).
Proof.
  intros Hnd. destruct (map_get k m) as [v'|] eqn:Hget.
  - by rewrite map_keys_set_present.
  - rewrite map_set_absent by done. unfold map_keys in *.
    rewrite fmap_app. simpl. apply NoDup_app. split; [done|].
    split; [|apply NoDup_singleton].
    intros x Hx ->%list_elem_of_singleton.
    by apply map_get_None_keys in Hget.
Qed.

Lemma map_delete_absent k m : map_get k m = None -> map_delete k m = (false, m).
Proof.
  induction m as [|[k' v'] m IH]; simpl; [done|].
  destruct (decide (k' = k)); [done|].
  intros H. by rewrite IH.
Qed.

Lemma map_delete_present k m :
  is_Some (map_get k m) -> fst (map_delete k m) = true.
Proof.
  induction m as [|[k' v'] m IH]; simpl.
  - by intros [? ?].
  - destruct (decide (k' = k)); [done|].
    intros H. specialize (IH H). by destruct (map_delete k m).
Qed.
End JsMapFacts.

(** ** The sort *)

Lemma sort_insert_Permutation a l : sort_insert a l ≡ₚ a :: l.
Proof.
  induction l as [|b l IH]; simpl; [done|].
  destruct (decide (compareFn a b <= 0)); [done|].
  rewrite IH. apply Permutation_swap.
Qed.

Lemma array_sort_Permutation l : array_sort l ≡ₚ l.
Proof.
  induction l as [|a l IH]; simpl; [done|].
  by rewrite sort_insert_Permutation, IH.
Qed.

Lemma sort_insert_sorted a l :
  StronglySorted by_createdAt l -> StronglySorted by_createdAt (sort_insert a l).
Proof.
  induction 1 as [|b l Hl IH Hb]; simpl.
  - repeat constructor.
  - unfold compareFn. destruct (decide (createdAt a - createdAt b <= 0)) as [Hle|Hgt].
    + constructor; [by constructor|].
      constructor; [unfold by_createdAt; lia|].
      eapply Forall_impl; [exact Hb|]. unfold by_createdAt. intros; lia.
    + constructor; [done|].
      rewrite sort_insert_Permutation. constructor; [|done].
      unfold by_createdAt. lia.
Qed.

Lemma array_sort_sorted l : StronglySorted by_createdAt (array_sort l).
Proof.
  induction l as [|a l IH]; simpl; [constructor|].
  by apply sort_insert_sorted.
Qed.

(** Entries with the same timestamp keep the order they had. *)
Lemma sort_insert_same_time a l :
  Forall (fun b => createdAt a <= createdAt b) l -> sort_insert a l = a :: l.
Proof.
  destruct 1 as [|b l Hb _]; simpl; [done|].
  unfold compareFn. by rewrite decide_True by lia.
Qed.

(** ** The store operations *)

Lemma getTodoById_createTodo now_id now_created title store :
  getTodoById (toString now_id) (snd (createTodo now_id now_created title store))
  = Some (fst (createTodo now_id now_created title store)).
Proof. unfold getTodoById, createTodo. simpl. apply map_get_set_eq. Qed.

(** A create whose clock reading prints to an id not in the store keeps every
    entry and adds one. *)
Lemma createTodo_fresh now_id now_created title store :
  getTodoById (toString now_id) store = None ->
  snd (createTodo now_id now_created title store)
  = store ++ [(toString now_id, fst (createTodo now_id now_created title store))].
Proof. intros H. unfold createTodo. simpl. by apply map_set_absent. Qed.

(** Two readings of the clock give the same id exactly when they are equal. *)
Lemma createTodo_same_id now1 now1' now2 now2' title1 title2 store1 store2 :
  id (fst (createTodo now1 now1' title1 store1))
  = id (fst (createTodo now2 now2' title2 store2)) <-> now1 = now2.
Proof.
  unfold createTodo, toString. simpl. split; [|by intros ->].
  apply (inj pretty).
Qed.

(** C10: on a fresh process the store holds exactly the three sample todos,
    with ids "1", "2" and "3" in this order, none of them completed, so
    [getAllTodos] on the untouched store returns three todos and not the
    empty sequence.  The three clock readings of the initialiser are
    arbitrary. *)
Theorem on_import_sample_todos (now1 now2 now3 : Z) :
  let store := on_import now1 now2 now3 in
  map_keys store = ["1"; "2"; "3"]
  /\ id <$> map_values store = ["1"; "2"; "3"]
  /\ Forall (fun t => completed t = false) (map_values store)
  /\ length (getAllTodos store) = 3%nat
  /\ getAllTodos store <> [].
Proof.
  simpl. repeat split.
  - repeat constructor.
  - unfold getAllTodos. by rewrite array_sort_Permutation.
  - intros H. apply (f_equal length) in H. revert H.
    unfold getAllTodos. by rewrite array_sort_Permutation.
Qed.

(** C8: for every store, [getAllTodos] is total, returns the todos of the
    store (a rearrangement of the map's values) in ascending order of
    [createdAt], and returns the empty sequence exactly when the store is
    empty. *)
Theorem getAllTodos_sorted (store : Store) :
  StronglySorted by_createdAt (getAllTodos store)
  /\ getAllTodos store ≡ₚ map_values store
  /\ (getAllTodos store = [] <-> store = []).
Proof.
  unfold getAllTodos. split; [apply array_sort_sorted|].
  split; [apply array_sort_Permutation|].
  split.
  - intros H. apply (f_equal length) in H.
    rewrite array_sort_Permutation in H. unfold map_values in H.
    rewrite length_fmap in H. by destruct store.
  - by intros ->.
Qed.

(** C9: for every valid title, after [createTodo] the lookup of the returned
    id yields a todo with that title, not completed, whose [createdAt] is at
    least the time [before] read before the call, the clock never running
    backwards between the readings. *)
Theorem createTodo_then_get (before now_id now_created : Z) (title : string)
    (store : Store) :
  valid_title title ->
  before <= now_id -> now_id <= now_created ->
  let '(todo, store') := createTodo now_id now_created title store in
  exists got, getTodoById (id todo) store' = Some got
    /\ Todos.title got = title
    /\ completed got = false
    /\ before <= createdAt got.
Proof.
  intros _ H1 H2. unfold createTodo, getTodoById.
  eexists. split; [apply map_get_set_eq|]. simpl. repeat split. lia.
Qed.

Lemma createTodo_then_get_witness :
  let '(todo, store') :=
    createTodo 1700000000000 1700000000001 "Buy milk" (on_import 5 5 5) in
  exists got, getTodoById (id todo) store' = Some got
    /\ Todos.title got = "Buy milk"
    /\ completed got = false
    /\ 1699999999999 <= createdAt got.
Proof.
  apply (createTodo_then_get 1699999999999 1700000000000 1700000000001
           "Buy milk" (on_import 5 5 5)).
  - unfold valid_title. simpl. lia.
  - lia.
  - lia.
Defined.

Lemma updateTodo_absent id updates store :
  getTodoById id store = None -> updateTodo id updates store = (None, store).
Proof. unfold getTodoById, updateTodo. by intros ->. Qed.

Lemma toggleTodo_absent id store :
  getTodoById id store = None -> toggleTodo id store = (None, store).
Proof. unfold getTodoById, toggleTodo. by intros ->. Qed.

Lemma toggleTodo_present id store todo :
  getTodoById id store = Some todo ->
  toggleTodo id store
  = (Some (mkTodo (Todos.id todo) (title todo) (negb (completed todo)) (createdAt todo)),
     map_set id (mkTodo (Todos.id todo) (title todo) (negb (completed todo))
                        (createdAt todo)) store).
Proof. unfold getTodoById, toggleTodo, updateTodo. by intros ->. Qed.

(** On update objects whose present keys hold values of the declared types:
    for an id present in the store, [updateTodo] returns the record in which
    each provided field has the provided value and each absent key (and [id],
    [createdAt]) leaves the prior value, and stores it under the same key,
    every other entry and the order of the keys staying as they were; for an
    id absent from the store it returns the not-found signal and the store is
    unmodified. *)
Theorem updateTodo_merges (id : string) (updates : Updates) (store : Store) :
  (forall todo, getTodoById id store = Some todo ->
     exists updated store',
       updateTodo id updates store = (Some updated, store')
       /\ getTodoById id store' = Some updated
       /\ (forall x, u_title updates = Some x -> title updated = x)
       /\ (u_title updates = None -> title updated = title todo)
       /\ (forall b, u_completed updates = Some b -> completed updated = b)
       /\ (u_completed updates = None -> completed updated = completed todo)
       /\ Todos.id updated = Todos.id todo
       /\ createdAt updated = createdAt todo
       /\ (forall other, other <> id ->
             getTodoById other store' = getTodoById other store)
       /\ map_keys store' = map_keys store)
  /\ (getTodoById id store = None -> updateTodo id updates store = (None, store)).
Proof.
  split; [|apply updateTodo_absent].
  intros todo Hget. unfold getTodoById in *. unfold updateTodo. rewrite Hget.
  eexists _, _. split; [reflexivity|].
  split; [apply map_get_set_eq|].
  unfold spread; simpl.
  split; [by intros x ->|]. split; [by intros ->|].
  split; [by intros b ->|]. split; [by intros ->|].
  split; [done|]. split; [done|].
  split.
  - intros other Hne. by apply map_get_set_ne.
  - apply map_keys_set_present. by rewrite Hget.
Qed.

Lemma updateTodo_merges_witness :
  exists updated store',
    updateTodo "2" (mkUpdates (Some "Ship it") None) (on_import 7 8 9)
    = (Some updated, store')
    /\ title updated = "Ship it"
    /\ completed updated = false
    /\ updateTodo "4" (mkUpdates (Some "x") None) (on_import 7 8 9)
       = (None, on_import 7 8 9).
Proof.
  destruct (updateTodo_merges "2" (mkUpdates (Some "Ship it") None) (on_import 7 8 9))
    as [Hpresent _].
  destruct (Hpresent (mkTodo "2" "Build a ChatGPT app" false 8) eq_refl)
    as (updated & store' & Hupd & _ & Ht & _ & _ & Hc & _).
  exists updated, store'. split; [exact Hupd|].
  split; [by apply Ht|]. split; [by apply Hc|].
  by apply (updateTodo_merges "4" (mkUpdates (Some "x") None) (on_import 7 8 9)).
Defined.

(** C6: for an id present in the store, one [toggleTodo] returns the todo
    with [completed] inverted and equals [updateTodo] with the inverted
    boolean, and a second [toggleTodo] returns the todo as it was at first and
    leaves the store as it was at first; for an id absent from the store
    [toggleTodo] returns the not-found signal. *)
Theorem toggleTodo_twice (id : string) (store : Store) :
  (forall todo, getTodoById id store = Some todo ->
     exists flipped store',
       toggleTodo id store = (Some flipped, store')
       /\ completed flipped = negb (completed todo)
       /\ getTodoById id store' = Some flipped
       /\ toggleTodo id store
          = updateTodo id (mkUpdates None (Some (negb (completed todo)))) store
       /\ toggleTodo id store' = (Some todo, store))
  /\ (getTodoById id store = None -> toggleTodo id store = (None, store)).
Proof.
  split; [|apply toggleTodo_absent].
  intros todo Hget. eexists _, _.
  split; [by apply toggleTodo_present|]. split; [done|].
  assert (getTodoById id
            (map_set id (mkTodo (Todos.id todo) (title todo) (negb (completed todo))
                                (createdAt todo)) store)
          = Some (mkTodo (Todos.id todo) (title todo) (negb (completed todo))
                         (createdAt todo))) as Hget'
    by apply map_get_set_eq.
  split; [exact Hget'|].
  split.
  - unfold toggleTodo. unfold getTodoById in Hget. by rewrite Hget.
  - rewrite (toggleTodo_present _ _ _ Hget'). simpl.
    rewrite negb_involutive, map_set_set.
    destruct todo as [i t c n]; simpl.
    by rewrite (map_set_get_id _ _ _ Hget).
Qed.

Lemma toggleTodo_twice_witness :
  exists flipped store',
    toggleTodo "2" (on_import 7 8 9) = (Some flipped, store')
    /\ completed flipped = true
    /\ toggleTodo "2" store'
       = (Some (mkTodo "2" "Build a ChatGPT app" false 8), on_import 7 8 9)
    /\ toggleTodo "4" (on_import 7 8 9) = (None, on_import 7 8 9).
Proof.
  destruct (toggleTodo_twice "2" (on_import 7 8 9)) as [Hpresent _].
  destruct (Hpresent (mkTodo "2" "Build a ChatGPT app" false 8) eq_refl)
    as (flipped & store' & Ht & Hc & _ & _ & Hback).
  exists flipped, store'. split; [exact Ht|]. split; [exact Hc|].
  split; [exact Hback|].
  by apply (toggleTodo_twice "4" (on_import 7 8 9)).
Defined.

(** C1, at the failing input: two [createTodo] calls that read the same
    millisecond get the same id, the second replaces the first in the store,
    and the store has grown by one entry only. *)
Theorem createTodo_same_millisecond :
  let store0 := on_import 1700000000000 1700000000000 1700000000000 in
  let '(todoA, store1) := createTodo 1700000000123 1700000000123 "A" store0 in
  let '(todoB, store2) := createTodo 1700000000123 1700000000123 "B" store1 in
  id todoA = id todoB
  /\ todoA <> todoB
  /\ getTodoById (id todoA) store1 = Some todoA
  /\ getTodoById (id todoA) store2 = Some todoB
  /\ (todoA ∉ getAllTodos store2)
  /\ map_size store2 = 4%nat.
Proof.
  vm_compute. repeat split; try done.
  intros H. repeat (apply elem_of_cons in H as [H|H]; [discriminate H|]).
  by apply elem_of_nil in H.
Qed.

(** ** The tool handlers *)

Lemma add_schema_title props title :
  map_get "title" props = Some (JStr title) ->
  add_schema (JObj props) = z_title [key "title"] (JStr title).
Proof. unfold add_schema, prop. by intros ->. Qed.

Lemma id_schema_id props id :
  map_get "id" props = Some (JStr id) -> id_schema (JObj props) = inr id.
Proof. unfold id_schema, prop. by intros ->. Qed.

(** A failed validation leaves the store as it was, whatever the handler. *)
Lemma add_todo_throw now_id now_created raw store issues :
  add_schema raw = inl issues ->
  add_todo now_id now_created raw store = (Throw issues, store).
Proof. unfold add_todo. by intros ->. Qed.

(** C2, counterexample: the Store's [createTodo] takes any title; the empty
    one and one of 201 characters are stored like any other, and the store
    grows. *)
Lemma createTodo_no_validation :
  let store := on_import 5 5 5 in
  let long := String.string_of_list_ascii (replicate 201 (Ascii.ascii_of_nat 97)) in
  let '(todo1, store1) := createTodo 1700000000000 1700000000000 EmptyString store in
  let '(todo2, store2) := createTodo 1700000000001 1700000000001 long store in
  title todo1 = EmptyString
  /\ getTodoById (id todo1) store1 = Some todo1
  /\ map_size store1 = S (map_size store)
  /\ String.length (title todo2) = 201%nat
  /\ getTodoById (id todo2) store2 = Some todo2
  /\ map_size store2 = S (map_size store).
Proof. vm_compute. repeat split. Qed.

(** C2, as amended: the add handler rejects with a validation error every
    title that is empty or longer than 200 characters, and the store is
    unchanged; for every title of length 1 to 200 it returns a result that is
    not an error and the store is the one [createTodo] leaves, in which the
    new todo is found under its id. *)
Theorem add_todo_validates (now_id now_created : Z) (props : list (string * jsval))
    (title : string) (store : Store) :
  map_get "title" props = Some (JStr title) ->
  (title = EmptyString \/ (200 < String.length title)%nat ->
     exists issues, issues <> []
       /\ add_todo now_id now_created (JObj props) store = (Throw issues, store))
  /\ (valid_title title ->
     exists result,
       add_todo now_id now_created (JObj props) store
       = (Return result, snd (createTodo now_id now_created title store))
       /\ isError result = false
       /\ newTodo <$> structuredContent result
          = Some (Some (fst (createTodo now_id now_created title store)))
       /\ getTodoById (toString now_id) (snd (createTodo now_id now_created title store))
          = Some (mkTodo (toString now_id) title false now_created)).
Proof.
  intros Hprop. pose proof (add_schema_title _ _ Hprop) as Hschema.
  unfold z_title in Hschema. split.
  - intros Hbad. unfold add_todo. rewrite Hschema.
    destruct (decide (String.length title < 1)%nat) as [|Hge].
    + eexists. split; [|reflexivity]. discriminate.
    + destruct (decide (200 < String.length title)%nat) as [|Hle].
      * eexists. split; [|reflexivity]. discriminate.
      * exfalso. destruct Hbad as [->|?]; [simpl in Hge|]; lia.
  - intros [Hlo Hhi]. unfold add_todo. rewrite Hschema.
    rewrite decide_False by lia. rewrite decide_False by lia.
    eexists. split; [reflexivity|]. simpl. repeat split.
    apply map_get_set_eq.
Qed.

Lemma add_todo_validates_witness :
  (exists issues, issues <> []
     /\ add_todo 1700000000000 1700000000001 (JObj [("title", JStr EmptyString)])
          (on_import 5 5 5)
        = (Throw issues, on_import 5 5 5))
  /\ (exists result,
        add_todo 1700000000000 1700000000001 (JObj [("title", JStr "Buy milk")])
          (on_import 5 5 5)
        = (Return result,
           snd (createTodo 1700000000000 1700000000001 "Buy milk" (on_import 5 5 5)))
        /\ isError result = false).
Proof.
  split.
  - apply (add_todo_validates 1700000000000 1700000000001
             [("title", JStr EmptyString)] EmptyString (on_import 5 5 5) eq_refl).
    by left.
  - destruct (add_todo_validates 1700000000000 1700000000001
                [("title", JStr "Buy milk")] "Buy milk" (on_import 5 5 5) eq_refl)
      as [_ Hvalid].
    destruct Hvalid as (result & Hadd & Herr & _).
    + unfold valid_title. simpl. lia.
    + by exists result.
Defined.

(** The REST route refuses a missing, empty or non-string title and leaves
    the store as it was. *)
Lemma post_api_todos_rejects now_id now_created body store :
  (forall title, prop "title" (JObj body) = JStr title -> title = EmptyString) ->
  post_api_todos now_id now_created body store
  = (mkResponse 400 (ErrorBody "Title is required"), store).
Proof.
  intros H. unfold post_api_todos.
  destruct (prop "title" (JObj body)) as [| |b|n|t|l|o]; simpl;
    try by destruct_or?; repeat case_match.
  by rewrite (H t eq_refl).
Qed.

(** Any other title reaches [createTodo], whatever its length. *)
Lemma post_api_todos_creates now_id now_created body title store :
  prop "title" (JObj body) = JStr title -> title <> EmptyString ->
  post_api_todos now_id now_created body store
  = (mkResponse 200 (TodoBody (fst (createTodo now_id now_created title store))),
     snd (createTodo now_id now_created title store)).
Proof.
  intros Hprop Hne. unfold post_api_todos. rewrite Hprop. simpl.
  destruct (String.eqb_spec title EmptyString); [done|]. reflexivity.
Qed.

Lemma todo_schema_todo_json path t : todo_schema path (todo_json t) = inr t.
Proof. by destruct t. Qed.

Lemma z_array_from_todo_json path i l :
  z_array_from todo_schema path i (todo_json <$> l) = inr l.
Proof.
  revert i. induction l as [|t l IH]; intros i; [done|].
  rewrite fmap_cons. cbn [z_array_from].
  by rewrite todo_schema_todo_json, IH.
Qed.

(** Every list of todos, sent as JSON, is a snapshot the schema accepts. *)
Lemma save_schema_todo_json l :
  save_schema (JObj [("todos", JArr (todo_json <$> l))]) = inr l.
Proof. unfold save_schema. simpl. apply z_array_from_todo_json. Qed.

(** C5: whatever its argument, the save handler leaves the store as it was;
    for a snapshot its schema accepts it returns a result that is not an
    error, whose text acknowledges the number of todos received and whose
    payload is the current list of the store. *)
Theorem save_todo_state_noop (rawParams : jsval) (store : Store) :
  snd (save_todo_state rawParams store) = store
  /\ (forall todosToSave, save_schema rawParams = inr todosToSave ->
        save_todo_state rawParams store
        = (Return
             {| content := ["Saved " +:+ pretty (length todosToSave) +:+ " todo"
                            +:+ plural (length todosToSave) +:+ "."];
                structuredContent :=
                  Some (mkStructured (getAllTodos store) None None None);
                isError := false |},
           store)).
Proof.
  unfold save_todo_state. split.
  - by destruct (save_schema rawParams).
  - by intros todosToSave ->.
Qed.

Lemma save_todo_state_noop_witness :
  let snapshot := [mkTodo "9" "Unsaved" true 42] in
  let store := on_import 5 6 7 in
  save_todo_state (JObj [("todos", JArr (todo_json <$> snapshot))]) store
  = (Return
       {| content := ["Saved 1 todo."];
          structuredContent := Some (mkStructured (getAllTodos store) None None None);
          isError := false |},
     store).
Proof.
  intros snapshot store.
  destruct (save_todo_state_noop
              (JObj [("todos", JArr (todo_json <$> snapshot))]) store)
    as [_ Haccepted].
  apply (Haccepted snapshot). reflexivity.
Defined.

(** C7: for an id absent from the store, the toggle handler and the delete
    handler return (they do not throw) the error result: [isError] set, one
    text naming the id, no structured payload; and the store is as it was. *)
Theorem not_found_error_result (props : list (string * jsval)) (id : string)
    (store : Store) :
  map_get "id" props = Some (JStr id) ->
  getTodoById id store = None ->
  toggle_todo (JObj props) store = (Return (not_found id), store)
  /\ delete_todo (JObj props) store = (Return (not_found id), store)
  /\ isError (not_found id) = true
  /\ structuredContent (not_found id) = None
  /\ content (not_found id)
     = ["To-do item with ID " +:+ dquote +:+ id +:+ dquote +:+ " not found."].
Proof.
  intros Hprop Hget. unfold toggle_todo, delete_todo, deleteTodo.
  rewrite (id_schema_id _ _ Hprop), (toggleTodo_absent _ _ Hget).
  unfold getTodoById in Hget. by rewrite (map_delete_absent _ _ Hget).
Qed.

Lemma not_found_error_result_witness :
  toggle_todo (JObj [("id", JStr "42")]) (on_import 5 6 7)
  = (Return (not_found "42"), on_import 5 6 7)
  /\ delete_todo (JObj [("id", JStr "42")]) (on_import 5 6 7)
     = (Return (not_found "42"), on_import 5 6 7).
Proof.
  destruct (not_found_error_result [("id", JStr "42")] "42" (on_import 5 6 7)
              eq_refl eq_refl) as (Ht & Hd & _).
  by split.
Defined.

(** ** The routes on /mcp *)

(** C4, counterexample: a PUT (or PATCH) request on [/mcp] matches no route,
    so the method-not-allowed handler does not answer it. *)
Lemma mcp_put_not_answered :
  PUT <> POST
  /\ mcp_dispatch PUT = None
  /\ mcp_response PUT <> Some (methodNotAllowed PUT)
  /\ mcp_dispatch PATCH = None.
Proof. repeat split; discriminate. Qed.

(** C4, as amended: a GET or a DELETE request on [/mcp] is answered by the
    method-not-allowed handler, with status 405 and the fixed envelope whose
    error code is -32000. *)
Theorem mcp_get_delete_not_allowed (method : Method) :
  method = GET \/ method = DELETE ->
  mcp_dispatch method = Some methodNotAllowedHandler
  /\ mcp_response method
     = Some {| status := 405; body := JsonRpcError (-32000) "Method not allowed." |}.
Proof. by intros [-> | ->]. Qed.

Lemma mcp_get_delete_not_allowed_witness :
  mcp_dispatch DELETE = Some methodNotAllowedHandler
  /\ mcp_response DELETE
     = Some {| status := 405; body := JsonRpcError (-32000) "Method not allowed." |}.
Proof. apply (mcp_get_delete_not_allowed DELETE). by right. Defined.

(** The methods that reach the method-not-allowed handler are GET, DELETE
    and, through the GET route, HEAD. *)
Lemma mcp_dispatch_not_allowed_iff method :
  mcp_dispatch method = Some methodNotAllowedHandler
  <-> method = GET \/ method = DELETE \/ method = HEAD.
Proof.
  destruct method; vm_compute; split; intros H; try discriminate; auto;
    by repeat destruct H as [H|H].
Qed.

(** * Further properties of the store *)

Section JsMapDelete.
Context {V : Type}.
Implicit Types (m : list (string * V)) (k : string) (v : V).

Lemma map_delete_fst k m : fst (map_delete k m) = true <-> is_Some (map_get k m).
Proof.
  induction m as [|[k' v'] m IH]; simpl.
  - split; [done | by intros [? ?]].
  - destruct (decide (k' = k)); simpl; [by split; eauto|].
    by destruct (map_delete k m).
Qed.

Lemma map_delete_get_ne k k' m :
  k <> k' -> map_get k' (snd (map_delete k m)) = map_get k' m.
Proof.
  intros Hne. induction m as [|[k0 v0] m IH]; simpl; [done|].
  destruct (decide (k0 = k)) as [->|H0]; simpl.
  - by rewrite decide_False.
  - destruct (map_delete k m) as [b r]; simpl in *. by rewrite IH.
Qed.

Lemma map_delete_keys k m :
  map_keys (snd (map_delete k m)) `sublist_of` map_keys m.
Proof.
  unfold map_keys. induction m as [|[k' v'] m IH]; csimpl; [done|].
  destruct (decide (k' = k)); simpl.
  - by apply sublist_cons.
  - destruct (map_delete k m) as [b r]; csimpl in *. by apply sublist_skip.
Qed.

Lemma map_delete_get_eq k m :
  NoDup (map_keys m) -> map_get k (snd (map_delete k m)) = None.
Proof.
  unfold map_keys. induction m as [|[k' v'] m IH]; csimpl; [done|].
  intros [Hnotin Hnd]%NoDup_cons. destruct (decide (k' = k)) as [->|Hne]; simpl.
  - by apply map_get_None_keys.
  - specialize (IH Hnd). destruct (map_delete k m) as [b r]; simpl in *.
    by rewrite decide_False.
Qed.

Lemma map_delete_size k m :
  is_Some (map_get k m) -> S (map_size (snd (map_delete k m))) = map_size m.
Proof.
  unfold map_size. induction m as [|[k' v'] m IH]; simpl.
  - by intros [? ?].
  - destruct (decide (k' = k)); simpl; [done|].
    intros H. specialize (IH H). destruct (map_delete k m) as [b r]; simpl in *.
    by rewrite IH.
Qed.

Lemma map_delete_Forall (P : string * V -> Prop) k m :
  Forall P m -> Forall P (snd (map_delete k m)).
Proof.
  induction 1 as [|[k' v'] m HP Hm IH]; simpl; [done|].
  destruct (decide (k' = k)); simpl; [done|].
  destruct (map_delete k m) as [b r]; simpl in *. by constructor.
Qed.

Lemma map_set_Forall (P : string * V -> Prop) k v m :
  P (k, v) -> Forall P m -> Forall P (map_set k v m).
Proof.
  intros Hkv. induction 1 as [|[k' v'] m HP Hm IH]; simpl.
  - by repeat constructor.
  - destruct (decide (k' = k)) as [->|]; by constructor.
Qed.

(** Deleting the entry a [set] has appended gives the map back. *)
Lemma map_delete_set_absent k v m :
  map_get k m = None -> map_delete k (map_set k v m) = (true, m).
Proof.
  induction m as [|[k' v'] m IH]; simpl.
  - by rewrite decide_True.
  - destruct (decide (k' = k)); [done|]. intros H. simpl.
    rewrite decide_False by done. by rewrite IH.
Qed.
End JsMapDelete.

Lemma store_ok_set k todo store :
  id todo = k -> store_ok store -> store_ok (map_set k todo store).
Proof.
  intros Hid [Hnd Hall]. split; [by apply map_set_NoDup|].
  by apply map_set_Forall.
Qed.

Lemma store_ok_get k todo store :
  store_ok store -> map_get k store = Some todo -> id todo = k.
Proof.
  intros [_ Hall]. induction Hall as [|[k' v'] m Hkv Hm IH]; simpl; [done|].
  destruct (decide (k' = k)) as [->|]; [|done].
  by intros [= <-].
Qed.

Lemma store_ok_delete k store : store_ok store -> store_ok (snd (deleteTodo k store)).
Proof.
  intros [Hnd Hall]. unfold deleteTodo. split.
  - eapply sublist_NoDup; [exact Hnd|apply map_delete_keys].
  - by apply map_delete_Forall.
Qed.

(** In a well-formed store a todo is listed exactly when the lookup of its id
    finds it. *)
Lemma getAllTodos_elem store t :
  store_ok store -> t ∈ getAllTodos store <-> getTodoById (id t) store = Some t.
Proof.
  intros [Hnd Hall]. unfold getAllTodos, getTodoById.
  rewrite array_sort_Permutation. unfold map_values, map_keys in *.
  induction Hall as [|[k v] m Hkv Hm IH]; csimpl.
  - split; [by intros ?%elem_of_nil | done].
  - apply NoDup_cons in Hnd as [Hnotin Hnd]. simpl in Hkv. subst k.
    rewrite elem_of_cons. destruct (decide (id v = id t)) as [Heq|Hne].
    + split; [|intros [= ->]; by left].
      intros [->|Hin]; [done|]. exfalso. apply Hnotin. rewrite Heq.
      apply (IH Hnd) in Hin.
      destruct (decide (id t ∈ m.*1)) as [|Hn]; [done|].
      apply map_get_None_keys in Hn. congruence.
    + rewrite <- (IH Hnd). split; [|by right].
      intros [->|Hin]; [done|done].
Qed.

(** X1: [deleteTodo] returns [true] exactly when the id was in the store; an
    absent id leaves the store as it was. *)
Theorem deleteTodo_result (id : string) (store : Store) :
  (fst (deleteTodo id store) = true <-> is_Some (getTodoById id store))
  /\ (getTodoById id store = None -> deleteTodo id store = (false, store)).
Proof.
  unfold deleteTodo, getTodoById. split.
  - apply map_delete_fst.
  - apply map_delete_absent.
Qed.

(** X2: in a store whose keys are distinct, deleting a present id removes it
    (a later lookup of the id finds nothing, a second delete returns false),
    takes the size down by one and leaves every other entry in place. *)
Theorem deleteTodo_removes (id : string) (store : Store) :
  store_ok store -> is_Some (getTodoById id store) ->
  let store' := snd (deleteTodo id store) in
  fst (deleteTodo id store) = true
  /\ getTodoById id store' = None
  /\ deleteTodo id store' = (false, store')
  /\ S (map_size store') = map_size store
  /\ (forall other, other <> id -> getTodoById other store' = getTodoById other store).
Proof.
  intros [Hnd _] Hsome. unfold deleteTodo, getTodoById in *. simpl.
  split; [by apply map_delete_present|].
  split; [by apply map_delete_get_eq|].
  split; [by apply map_delete_absent, map_delete_get_eq|].
  split; [by apply map_delete_size|].
  intros other Hne. by apply map_delete_get_ne.
Qed.

Lemma on_import_store_ok now1 now2 now3 : store_ok (on_import now1 now2 now3).
Proof.
  split; simpl.
  - change (NoDup ["1"; "2"; "3"]). by apply (bool_decide_unpack _).
  - by repeat constructor.
Qed.

Lemma deleteTodo_removes_witness :
  let store' := snd (deleteTodo "2" (on_import 7 8 9)) in
  fst (deleteTodo "2" (on_import 7 8 9)) = true
  /\ getTodoById "2" store' = None
  /\ deleteTodo "2" store' = (false, store')
  /\ S (map_size store') = map_size (on_import 7 8 9)
  /\ (forall other, other <> "2" ->
        getTodoById other store' = getTodoById other (on_import 7 8 9)).
Proof.
  apply (deleteTodo_removes "2" (on_import 7 8 9)).
  - apply on_import_store_ok.
  - by eexists.
Defined.

(** X3: the store's shape is an invariant: it holds after module
    initialisation, and [createTodo], [updateTodo], [toggleTodo] and
    [deleteTodo] each keep the keys distinct and every todo under its own
    id. *)
Theorem store_ok_preserved (store : Store) :
  store_ok store ->
  (forall now_id now_created title,
     store_ok (snd (createTodo now_id now_created title store)))
  /\ (forall id updates, store_ok (snd (updateTodo id updates store)))
  /\ (forall id, store_ok (snd (toggleTodo id store)))
  /\ (forall id, store_ok (snd (deleteTodo id store))).
Proof.
  intros Hok.
  assert (forall id updates, store_ok (snd (updateTodo id updates store))) as Hupd.
  { intros k updates. unfold updateTodo.
    destruct (map_get k store) as [todo|] eqn:Hget; simpl; [|done].
    apply store_ok_set; [|done]. simpl. by eapply store_ok_get. }
  split; [|split; [exact Hupd|split]].
  - intros now_id now_created title. unfold createTodo. simpl.
    by apply store_ok_set.
  - intros k. unfold toggleTodo.
    destruct (map_get k store) as [todo|] eqn:Hget; [apply Hupd|done].
  - intros k. by apply store_ok_delete.
Qed.

Lemma store_ok_preserved_witness :
  store_ok (snd (createTodo 1700000000000 1700000000001 "Buy milk" (on_import 7 8 9)))
  /\ store_ok (snd (deleteTodo "2" (on_import 7 8 9))).
Proof.
  destruct (store_ok_preserved (on_import 7 8 9) (on_import_store_ok 7 8 9))
    as (Hcreate & _ & _ & Hdelete).
  split; [apply Hcreate | apply Hdelete].
Defined.

(** ** Order of the listing *)

Lemma sort_insert_filter (c : Z) a l :
  filter (fun t => createdAt t = c) (sort_insert a l)
  = filter (fun t => createdAt t = c) (a :: l).
Proof.
  induction l as [|b l IH]; simpl; [done|].
  unfold compareFn. destruct (decide (createdAt a - createdAt b <= 0)) as [|Hgt]; [done|].
  rewrite (filter_cons _ b), IH, !filter_cons.
  repeat case_decide; try done; lia.
Qed.

(** X4: the sort of [getAllTodos] is stable: the todos created at one and the
    same time come out in the order in which the map holds them, that is the
    order of their insertion. *)
Theorem getAllTodos_stable (store : Store) (c : Z) :
  filter (fun t => createdAt t = c) (getAllTodos store)
  = filter (fun t => createdAt t = c) (map_values store).
Proof.
  unfold getAllTodos. induction (map_values store) as [|a l IH]; simpl; [done|].
  by rewrite sort_insert_filter, !filter_cons, IH.
Qed.

Lemma array_sort_sorted_id l : StronglySorted by_createdAt l -> array_sort l = l.
Proof.
  induction 1 as [|a l Hl IH Ha]; simpl; [done|].
  rewrite IH. by apply sort_insert_same_time.
Qed.

(** X5: when the todos stand in the map in ascending order of creation time,
    as they do when every insertion reads a clock that has not gone back,
    [getAllTodos] returns them in the order of insertion. *)
Theorem getAllTodos_insertion_order (store : Store) :
  StronglySorted by_createdAt (map_values store) ->
  getAllTodos store = map_values store.
Proof. apply array_sort_sorted_id. Qed.

Lemma getAllTodos_insertion_order_witness :
  getAllTodos (on_import 7 7 9) = map_values (on_import 7 7 9).
Proof.
  apply (getAllTodos_insertion_order (on_import 7 7 9)).
  repeat (constructor; [|repeat constructor; unfold by_createdAt; simpl; lia]).
  constructor.
Defined.

Lemma sort_insert_fmap (f : Todo -> Todo) a l :
  (forall t, createdAt (f t) = createdAt t) ->
  sort_insert (f a) (f <$> l) = f <$> sort_insert a l.
Proof.
  intros Hf. induction l as [|b l IH]; csimpl; [done|].
  unfold compareFn. rewrite !Hf.
  destruct (decide (createdAt a - createdAt b <= 0)); csimpl; [done|].
  by rewrite IH.
Qed.

Lemma array_sort_fmap (f : Todo -> Todo) l :
  (forall t, createdAt (f t) = createdAt t) ->
  array_sort (f <$> l) = f <$> array_sort l.
Proof.
  intros Hf. induction l as [|a l IH]; csimpl; [done|].
  by rewrite IH, sort_insert_fmap.
Qed.

Lemma update_in_list_createdAt id updates t :
  createdAt (update_in_list id updates t) = createdAt t.
Proof. unfold update_in_list. by case_decide. Qed.

Lemma update_in_list_other k updates (store : Store) :
  Forall (fun e => id (snd e) = fst e) store -> k ∉ map_keys store ->
  update_in_list k updates <$> map_values store = map_values store.
Proof.
  unfold map_keys, map_values.
  induction 1 as [|[k' v'] m Hkv Hm IH]; csimpl; [done|].
  intros [Hne Hnotin]%not_elem_of_cons. simpl in Hkv.
  rewrite IH by done. unfold update_in_list at 1.
  by rewrite decide_False by congruence.
Qed.

Lemma map_values_updateTodo k updates store :
  store_ok store ->
  map_values (snd (updateTodo k updates store))
  = update_in_list k updates <$> map_values store.
Proof.
  intros [Hnd Hall]. unfold updateTodo.
  destruct (map_get k store) as [todo|] eqn:Hget; simpl.
  - revert Hnd Hget. unfold map_keys, map_values.
    induction Hall as [|[k' v'] m Hkv Hm IH]; csimpl; [done|].
    intros [Hnotin Hnd]%NoDup_cons. simpl in Hkv.
    destruct (decide (k' = k)) as [->|Hne]; csimpl.
    + intros [= ->]. unfold update_in_list at 1. rewrite decide_True by done.
      f_equal. symmetry. by apply update_in_list_other.
    + intros Hget. rewrite IH by done. unfold update_in_list at 2.
      by rewrite decide_False by congruence.
  - symmetry. apply update_in_list_other; [done|]. by apply map_get_None_keys.
Qed.

(** X6: in a well-formed store [updateTodo] does not reorder the listing: the
    list after the update is the list before it with the todo of that id
    replaced by its merged record, every other position unchanged. *)
Theorem getAllTodos_updateTodo (id : string) (updates : Updates) (store : Store) :
  store_ok store ->
  getAllTodos (snd (updateTodo id updates store))
  = update_in_list id updates <$> getAllTodos store.
Proof.
  intros Hok. unfold getAllTodos. rewrite map_values_updateTodo by done.
  apply array_sort_fmap. intros t. apply update_in_list_createdAt.
Qed.

Lemma getAllTodos_updateTodo_witness :
  getAllTodos (snd (updateTodo "2" (mkUpdates (Some "Ship it") None) (on_import 7 8 9)))
  = update_in_list "2" (mkUpdates (Some "Ship it") None) <$> getAllTodos (on_import 7 8 9).
Proof.
  apply (getAllTodos_updateTodo "2" (mkUpdates (Some "Ship it") None) (on_import 7 8 9)).
  apply on_import_store_ok.
Defined.

(** X7: [toggleTodo] keeps every todo at its position in the listing and
    inverts [completed] of the todo with that id only. *)
Theorem getAllTodos_toggleTodo (id : string) (store : Store) :
  store_ok store ->
  getAllTodos (snd (toggleTodo id store))
  = (fun t => if decide (Todos.id t = id)
              then mkTodo (Todos.id t) (title t) (negb (completed t)) (createdAt t)
              else t) <$> getAllTodos store.
Proof.
  intros Hok. unfold toggleTodo.
  destruct (map_get id store) as [todo|] eqn:Hget.
  - unfold getAllTodos at 1. rewrite map_values_updateTodo by done.
    rewrite array_sort_fmap by apply update_in_list_createdAt.
    fold (getAllTodos store).
    apply list_fmap_ext. intros i t Ht. unfold update_in_list.
    case_decide as Hid; [|done]. unfold spread. simpl. f_equal.
    assert (t ∈ map_values store) as Hin.
    { rewrite <- (array_sort_Permutation (map_values store)).
      by eapply list_elem_of_lookup_2. }
    unfold map_values in Hin. apply list_elem_of_fmap in Hin as ([k' t'] & -> & Hin).
    simpl in *. destruct Hok as [Hnd Hall].
    pose proof (proj1 (Forall_forall _ _) Hall _ Hin) as Hkey. simpl in Hkey. subst.
    clear -Hnd Hget Hin. revert Hnd Hget Hin. unfold map_keys.
    induction store as [|[k0 v0] m IH]; csimpl; [by intros _ _ ?%elem_of_nil|].
    intros [Hnotin Hnd]%NoDup_cons. destruct (decide (k0 = Todos.id t')) as [->|Hne].
    + intros [= ->] [Heq|Hin]%elem_of_cons; [by inversion Heq|].
      exfalso. apply Hnotin. apply list_elem_of_fmap. by exists (Todos.id t', t').
    + intros Hget [Heq|Hin]%elem_of_cons; [by inversion Heq|]. by apply IH.
  - simpl. symmetry. etrans; [|apply list_fmap_id].
    apply list_fmap_ext. intros i t Ht. simpl. case_decide as Hid; [|done].
    exfalso. assert (t ∈ map_values store) as Hin.
    { rewrite <- (array_sort_Permutation (map_values store)).
      by eapply list_elem_of_lookup_2. }
    unfold map_values in Hin. apply list_elem_of_fmap in Hin as ([k' t'] & -> & Hin).
    destruct Hok as [_ Hall].
    pose proof (proj1 (Forall_forall _ _) Hall _ Hin) as Hkey. simpl in *.
    apply map_get_None_keys in Hget. apply Hget. unfold map_keys.
    apply list_elem_of_fmap. exists (k', t'). split; [simpl; congruence|done].
Qed.

Lemma getAllTodos_toggleTodo_witness :
  getAllTodos (snd (toggleTodo "2" (on_import 7 8 9)))
  = [ mkTodo "1" "Learn about MCP" false 7;
      mkTodo "2" "Build a ChatGPT app" true 8;
      mkTodo "3" "Deploy to Vercel" false 9 ].
Proof.
  rewrite (getAllTodos_toggleTodo "2" (on_import 7 8 9) (on_import_store_ok 7 8 9)).
  reflexivity.
Defined.

(** ** How the operations compose *)

(** X8: [createTodo] touches the entry under the new id only: every other id
    looks up as before, and the store grows by one entry exactly when the
    new id was not yet a key (otherwise its size stays). *)
Theorem createTodo_frame (now_id now_created : Z) (title : string) (store : Store) :
  let store' := snd (createTodo now_id now_created title store) in
  (forall other, other <> toString now_id ->
     getTodoById other store' = getTodoById other store)
  /\ (getTodoById (toString now_id) store = None ->
        map_size store' = S (map_size store))
  /\ (is_Some (getTodoById (toString now_id) store) ->
        map_size store' = map_size store).
Proof.
  unfold createTodo, getTodoById. simpl. split; [|split].
  - intros other Hne. apply map_get_set_ne. congruence.
  - intros H. by rewrite map_size_set, H.
  - intros [t H]. by rewrite map_size_set, H.
Qed.

Lemma createTodo_frame_witness :
  let store' := snd (createTodo 1700000000000 1700000000001 "Buy milk" (on_import 7 8 9)) in
  getTodoById "2" store' = getTodoById "2" (on_import 7 8 9)
  /\ map_size store' = 4%nat.
Proof.
  destruct (createTodo_frame 1700000000000 1700000000001 "Buy milk" (on_import 7 8 9))
    as (Hother & Hfresh & _).
  split.
  - apply Hother. discriminate.
  - apply Hfresh. reflexivity.
Defined.

(** X9: deleting a todo right after its creation gives back the store as it
    was, when the created id was new. *)
Theorem deleteTodo_createTodo (now_id now_created : Z) (title : string) (store : Store) :
  getTodoById (toString now_id) store = None ->
  let '(todo, store') := createTodo now_id now_created title store in
  deleteTodo (id todo) store' = (true, store).
Proof.
  intros H. unfold createTodo, deleteTodo. simpl. by apply map_delete_set_absent.
Qed.

Lemma deleteTodo_createTodo_witness :
  let '(todo, store') :=
    createTodo 1700000000000 1700000000001 "Buy milk" (on_import 7 8 9) in
  deleteTodo (id todo) store' = (true, on_import 7 8 9).
Proof.
  apply (deleteTodo_createTodo 1700000000000 1700000000001 "Buy milk" (on_import 7 8 9)).
  reflexivity.
Defined.

Lemma spread_merge todo first second :
  spread (spread todo first) second = spread todo (merge_updates first second).
Proof.
  unfold spread, merge_updates. simpl.
  by destruct (u_title second), (u_completed second).
Qed.

(** X10: two updates of one id in a row are one update with the two objects
    merged, the later object winning on the fields both provide: the same
    todo is returned and the same store is left. *)
Theorem updateTodo_updateTodo (id : string) (first second : Updates) (store : Store) :
  updateTodo id second (snd (updateTodo id first store))
  = updateTodo id (merge_updates first second) store.
Proof.
  unfold updateTodo. destruct (map_get id store) as [todo|] eqn:Hget; simpl.
  - by rewrite map_get_set_eq, map_set_set, spread_merge.
  - by rewrite Hget.
Qed.

(** X11: in a well-formed store the listing names every todo once: the ids of
    [getAllTodos] are pairwise distinct, there are as many todos as entries,
    and a todo is listed exactly when [getTodoById] finds it under its id. *)
Theorem getAllTodos_ids (store : Store) :
  store_ok store ->
  NoDup (id <$> getAllTodos store)
  /\ length (getAllTodos store) = map_size store
  /\ (forall t, t ∈ getAllTodos store <-> getTodoById (id t) store = Some t).
Proof.
  intros Hok. split; [|split].
  - destruct Hok as [Hnd Hall]. unfold getAllTodos.
    assert (id <$> map_values store = map_keys store) as Hids.
    { unfold map_values, map_keys. clear Hnd.
      induction Hall as [|[k v] m Hkv Hm IH]; csimpl; [done|].
      simpl in Hkv. by rewrite Hkv, IH. }
    by rewrite array_sort_Permutation, Hids.
  - unfold getAllTodos, map_values, map_size.
    by rewrite array_sort_Permutation, length_fmap.
  - intros t. by apply getAllTodos_elem.
Qed.

Lemma getAllTodos_ids_witness :
  NoDup (id <$> getAllTodos (on_import 7 8 9))
  /\ length (getAllTodos (on_import 7 8 9)) = map_size (on_import 7 8 9).
Proof.
  destruct (getAllTodos_ids (on_import 7 8 9) (on_import_store_ok 7 8 9))
    as (Hnd & Hlen & _).
  by split.
Defined.

(** * Further properties of the tool handlers *)

(** X12: the add handler returns a result exactly when its argument is an
    object whose [title] is a string of 1 to 200 characters; in every other
    case it throws the validation error and the store is as it was. *)
Theorem add_todo_returns_iff (now_id now_created : Z) (rawParams : jsval)
    (store : Store) :
  ((exists result store',
      add_todo now_id now_created rawParams store = (Return result, store'))
   <-> (exists title, prop "title" rawParams = JStr title /\ valid_title title))
  /\ (forall issues store',
        add_todo now_id now_created rawParams store = (Throw issues, store') ->
        store' = store /\ issues <> []).
Proof.
  unfold add_todo, add_schema, z_title, valid_title.
  destruct rawParams as [| |b|n|s|l|props]; simpl;
    try (split; [split; [by intros (? & ? & ?) | by intros (? & ? & ?)]
                | by intros ?? [= <- <-]]).
  destruct (default JUndefined (map_get "title" props)) as [| |b|n|t|l|o]; simpl;
    try (split; [split; [by intros (? & ? & ?) | by intros (? & ? & ?)]
                | by intros ?? [= <- <-]]).
  destruct (decide (String.length t < 1)%nat).
  { split; [split; [by intros (? & ? & ?) | intros (? & [= <-] & ?); lia]
           | by intros ?? [= <- <-]]. }
  destruct (decide (200 < String.length t)%nat).
  { split; [split; [by intros (? & ? & ?) | intros (? & [= <-] & ?); lia]
           | by intros ?? [= <- <-]]. }
  split; [|done]. split; [|by eauto].
  intros _. exists t. split; [done|lia].
Qed.

(** X13: for an id present in the store the toggle handler returns a result
    that is not an error, carrying the todo with [completed] inverted and the
    listing of the store after the toggle; its text says "completed" when the
    todo was incomplete before and "incomplete" when it was completed. *)
Theorem toggle_todo_present (props : list (string * jsval)) (id : string)
    (store : Store) (todo : Todo) :
  map_get "id" props = Some (JStr id) ->
  getTodoById id store = Some todo ->
  let flipped := mkTodo (Todos.id todo) (title todo) (negb (completed todo))
                        (createdAt todo) in
  let store' := snd (toggleTodo id store) in
  toggle_todo (JObj props) store
  = (Return
       {| content :=
            ["To-do " +:+ dquote +:+ title todo +:+ dquote +:+ " marked as "
             +:+ (if completed todo then "incomplete" else "completed") +:+ "."];
          structuredContent :=
            Some (mkStructured (getAllTodos store') None (Some flipped) None);
          isError := false |},
     store')
  /\ getTodoById id store' = Some flipped.
Proof.
  intros Hprop Hget. unfold toggle_todo.
  rewrite (id_schema_id _ _ Hprop), (toggleTodo_present _ _ _ Hget). simpl.
  split; [|apply map_get_set_eq].
  by destruct (completed todo).
Qed.

Lemma toggle_todo_present_witness :
  exists result store',
    toggle_todo (JObj [("id", JStr "2")]) (on_import 7 8 9) = (Return result, store')
    /\ content result = ["To-do " +:+ dquote +:+ "Build a ChatGPT app" +:+ dquote
                         +:+ " marked as completed."]
    /\ getTodoById "2" store' = Some (mkTodo "2" "Build a ChatGPT app" true 8).
Proof.
  destruct (toggle_todo_present [("id", JStr "2")] "2" (on_import 7 8 9)
              (mkTodo "2" "Build a ChatGPT app" false 8) eq_refl eq_refl)
    as [Hcall Hget].
  eexists _, _. split; [exact Hcall|]. split; [reflexivity|exact Hget].
Defined.

(** X14: for an id present in a well-formed store the delete handler returns
    a result that is not an error and names the deleted id; the todo is gone
    from the store and from the returned listing; the text quotes the title
    the todo had, or the id when that title is empty. *)
Theorem delete_todo_present (props : list (string * jsval)) (id : string)
    (store : Store) (todo : Todo) :
  map_get "id" props = Some (JStr id) ->
  store_ok store ->
  getTodoById id store = Some todo ->
  let store' := snd (deleteTodo id store) in
  delete_todo (JObj props) store
  = (Return
       {| content :=
            ["Deleted to-do: " +:+ dquote
             +:+ (if decide (title todo = EmptyString) then id else title todo)
             +:+ dquote];
          structuredContent :=
            Some (mkStructured (getAllTodos store') None None (Some id));
          isError := false |},
     store')
  /\ getTodoById id store' = None
  /\ (forall t, t ∈ getAllTodos store' -> Todos.id t <> id).
Proof.
  intros Hprop Hok Hget.
  assert (is_Some (getTodoById id store)) as Hsome by by rewrite Hget.
  pose proof (map_delete_present id store Hsome) as Htrue.
  assert (getTodoById id (snd (deleteTodo id store)) = None) as Hgone
    by (destruct Hok; by apply map_delete_get_eq).
  fold (deleteTodo id store) in Htrue.
  simpl in *. split; [|split; [exact Hgone|]].
  - unfold delete_todo. rewrite (id_schema_id _ _ Hprop), Hget.
    destruct (deleteTodo id store) as [b s'] eqn:Hdel. simpl in *. subst b.
    unfold title_or_id. repeat f_equal.
    destruct (String.eqb_spec (title todo) EmptyString) as [Heq|Hne].
    + by rewrite decide_True.
    + by rewrite decide_False.
  - intros t Hin Hid.
    apply getAllTodos_elem in Hin; [|by apply store_ok_delete].
    rewrite Hid in Hin. congruence.
Qed.

Lemma delete_todo_present_witness :
  exists result store',
    delete_todo (JObj [("id", JStr "2")]) (on_import 7 8 9) = (Return result, store')
    /\ content result = ["Deleted to-do: " +:+ dquote +:+ "Build a ChatGPT app" +:+ dquote]
    /\ getTodoById "2" store' = None.
Proof.
  destruct (delete_todo_present [("id", JStr "2")] "2" (on_import 7 8 9)
              (mkTodo "2" "Build a ChatGPT app" false 8) eq_refl
              (on_import_store_ok 7 8 9) eq_refl)
    as (Hcall & Hgone & _).
  eexists _, _. split; [exact Hcall|]. split; [reflexivity|exact Hgone].
Defined.

(** X15: when [id] is missing from the argument or is not a string, the
    toggle and the delete handler throw the validation error and leave the
    store as it was, whether or not such an id could be found. *)
Theorem id_handlers_reject (rawParams : jsval) (store : Store) :
  (forall id, prop "id" rawParams <> JStr id) ->
  exists issues, issues <> []
    /\ toggle_todo rawParams store = (Throw issues, store)
    /\ delete_todo rawParams store = (Throw issues, store).
Proof.
  intros Hnot. unfold toggle_todo, delete_todo, id_schema, z_string.
  destruct rawParams as [| |b|n|s|l|props];
    try (by eexists; split; [|split; reflexivity]).
  destruct (prop "id" (JObj props)) as [| |b|n|s|l|o] eqn:Hp;
    try (by eexists; split; [|split; reflexivity]).
  by destruct (Hnot s).
Qed.

Lemma id_handlers_reject_witness :
  exists issues, issues <> []
    /\ toggle_todo (JObj [("id", JNum 2)]) (on_import 7 8 9)
       = (Throw issues, on_import 7 8 9)
    /\ delete_todo (JObj [("id", JNum 2)]) (on_import 7 8 9)
       = (Throw issues, on_import 7 8 9).
Proof.
  apply (id_handlers_reject (JObj [("id", JNum 2)]) (on_import 7 8 9)).
  intros id. discriminate.
Defined.

(** X16: whichever of the add, toggle, delete and save handlers returns a
    payload, its list is the listing of the store the call leaves behind: it
    is what [refresh_todos] returns when called next. *)
Theorem payload_is_current (now_id now_created : Z) (rawParams : jsval)
    (store store' : Store) (result : ToolResult) (payload : StructuredContent) :
  add_todo now_id now_created rawParams store = (Return result, store')
  \/ toggle_todo rawParams store = (Return result, store')
  \/ delete_todo rawParams store = (Return result, store')
  \/ save_todo_state rawParams store = (Return result, store') ->
  structuredContent result = Some payload ->
  todos payload = getAllTodos store'
  /\ exists refreshed,
       refresh_todos store' = (Return refreshed, store')
       /\ todos <$> structuredContent refreshed = Some (todos payload).
Proof.
  intros Hcall Hpayload.
  assert (todos payload = getAllTodos store') as Htodos.
  { destruct Hcall as [H|[H|[H|H]]].
    - unfold add_todo in H. destruct (add_schema rawParams); [done|].
      simpl in H. injection H as <- <-. by injection Hpayload as <-.
    - unfold toggle_todo in H. destruct (id_schema rawParams); [done|].
      destruct (toggleTodo s store) as [[u|] s']; injection H as <- <-;
        [by injection Hpayload as <- | done].
    - unfold delete_todo in H. destruct (id_schema rawParams); [done|].
      destruct (deleteTodo s store) as [[|] s']; injection H as <- <-;
        [by injection Hpayload as <- | done].
    - unfold save_todo_state in H. destruct (save_schema rawParams); [done|].
      injection H as <- <-. by injection Hpayload as <-. }
  split; [done|]. eexists. split; [reflexivity|]. simpl. by rewrite Htodos.
Qed.

Lemma payload_is_current_witness :
  exists payload,
    todos payload
    = getAllTodos (snd (createTodo 1700000000000 1700000000001 "Buy milk"
                          (on_import 7 8 9)))
    /\ length (todos payload) = 4%nat.
Proof.
  eexists. split.
  - eapply (payload_is_current 1700000000000 1700000000001
              (JObj [("title", JStr "Buy milk")]) (on_import 7 8 9)).
    + left. reflexivity.
    + reflexivity.
  - reflexivity.
Defined.

(** X17: [show_todo_list] and [refresh_todos] leave the store as it was and
    report the number of entries of the store, with the noun in the singular
    for exactly one entry. *)
Theorem show_refresh_count (store : Store) :
  let n := map_size store in
  show_todo_list store
  = ({| show_text := ["To-do list is ready! You have " +:+ pretty n +:+ " task"
                      +:+ (if decide (n = 1%nat) then EmptyString else "s") +:+ "."];
        show_structured := mkShow (getAllTodos store) "To-do list ready" |},
     store)
  /\ refresh_todos store
     = (Return
          {| content := ["Refreshed " +:+ pretty n +:+ " todo"
                         +:+ (if decide (n = 1%nat) then EmptyString else "s") +:+ "."];
             structuredContent := Some (mkStructured (getAllTodos store) None None None);
             isError := false |},
        store).
Proof.
  assert (length (getAllTodos store) = map_size store) as Hlen.
  { unfold getAllTodos, map_values, map_size.
    by rewrite array_sort_Permutation, length_fmap. }
  unfold show_todo_list, refresh_todos, plural. simpl. by rewrite Hlen.
Qed.

(** * Further properties of the REST routes *)

Lemma toggleTodo_back id store todo :
  getTodoById id store = Some todo ->
  toggleTodo id
    (map_set id (mkTodo (Todos.id todo) (title todo) (negb (completed todo))
                        (createdAt todo)) store)
  = (Some todo, store).
Proof.
  intros Hget.
  rewrite (toggleTodo_present id _ (mkTodo (Todos.id todo) (title todo)
             (negb (completed todo)) (createdAt todo))) by apply map_get_set_eq.
  simpl. rewrite negb_involutive, map_set_set.
  destruct todo as [i t c n]; simpl.
  by rewrite (map_set_get_id _ _ _ Hget).
Qed.

(** X18: [DELETE /api/todos/:id] answers 404 with the error body and leaves
    the store as it was when the id is absent; when the id is present in a
    well-formed store it answers 200 with [{ success: true }], the id is gone
    and a second request for it answers 404. *)
Theorem delete_api_todo_spec (id : string) (store : Store) :
  (getTodoById id store = None ->
     delete_api_todo id store = (todo_not_found, store))
  /\ (store_ok store -> is_Some (getTodoById id store) ->
      let store' := snd (delete_api_todo id store) in
      fst (delete_api_todo id store)
      = {| code := 200; json := JObj [("success", JBool true)] |}
      /\ store' = snd (deleteTodo id store)
      /\ getTodoById id store' = None
      /\ delete_api_todo id store' = (todo_not_found, store')).
Proof.
  unfold delete_api_todo. split.
  - intros Hget. unfold deleteTodo. by rewrite (map_delete_absent _ _ Hget).
  - intros Hok Hsome.
    pose proof (map_delete_present id store Hsome) as Htrue.
    assert (getTodoById id (snd (deleteTodo id store)) = None) as Hgone
      by (destruct Hok; by apply map_delete_get_eq).
    fold (deleteTodo id store) in Htrue.
    destruct (deleteTodo id store) as [b s'] eqn:Hdel. simpl in *. subst b. simpl.
    repeat split; [done|]. unfold deleteTodo. by rewrite (map_delete_absent _ _ Hgone).
Qed.

Lemma delete_api_todo_spec_witness :
  delete_api_todo "4" (on_import 7 8 9) = (todo_not_found, on_import 7 8 9)
  /\ fst (delete_api_todo "2" (on_import 7 8 9))
     = {| code := 200; json := JObj [("success", JBool true)] |}.
Proof.
  destruct (delete_api_todo_spec "4" (on_import 7 8 9)) as [Habsent _].
  destruct (delete_api_todo_spec "2" (on_import 7 8 9)) as [_ Hpresent].
  split; [by apply Habsent|].
  apply Hpresent; [apply on_import_store_ok | by eexists].
Defined.

(** X19: [POST /api/todos/:id/toggle] answers 404 and leaves the store as it
    was when the id is absent; when it is present it answers 200 with the
    todo whose [completed] is inverted, and the same request once more
    answers with the original todo and restores the store. *)
Theorem post_api_todo_toggle_spec (id : string) (store : Store) :
  (getTodoById id store = None ->
     post_api_todo_toggle id store = (todo_not_found, store))
  /\ (forall todo, getTodoById id store = Some todo ->
      let flipped := mkTodo (Todos.id todo) (title todo) (negb (completed todo))
                            (createdAt todo) in
      exists store',
        post_api_todo_toggle id store
        = ({| code := 200; json := todo_json flipped |}, store')
        /\ getTodoById id store' = Some flipped
        /\ post_api_todo_toggle id store'
           = ({| code := 200; json := todo_json todo |}, store)).
Proof.
  unfold post_api_todo_toggle. split.
  - intros Hget. by rewrite (toggleTodo_absent _ _ Hget).
  - intros todo Hget. simpl.
    rewrite (toggleTodo_present _ _ _ Hget).
    eexists. split; [reflexivity|].
    split; [apply map_get_set_eq|].
    by rewrite (toggleTodo_back _ _ _ Hget).
Qed.

Lemma post_api_todo_toggle_spec_witness :
  post_api_todo_toggle "4" (on_import 7 8 9) = (todo_not_found, on_import 7 8 9)
  /\ exists store',
       post_api_todo_toggle "2" (on_import 7 8 9)
       = ({| code := 200; json := todo_json (mkTodo "2" "Build a ChatGPT app" true 8) |},
          store')
       /\ post_api_todo_toggle "2" store'
          = ({| code := 200; json := todo_json (mkTodo "2" "Build a ChatGPT app" false 8) |},
             on_import 7 8 9).
Proof.
  destruct (post_api_todo_toggle_spec "4" (on_import 7 8 9)) as [Habsent _].
  destruct (post_api_todo_toggle_spec "2" (on_import 7 8 9)) as [_ Hpresent].
  split; [by apply Habsent|].
  destruct (Hpresent (mkTodo "2" "Build a ChatGPT app" false 8) eq_refl)
    as (store' & Hcall & _ & Hback).
  by exists store'.
Defined.

(** X20: [POST /api/todos] answers 400 with "Title is required" and leaves
    the store as it was exactly when the body's [title] is missing, is not a
    string or is the empty string; every other title, of any length, is
    created and returned with status 200. *)
Theorem post_api_todos_spec (now_id now_created : Z) (body : list (string * jsval))
    (store : Store) :
  ((forall title, prop "title" (JObj body) = JStr title -> title = EmptyString) ->
     post_api_todos now_id now_created body store
     = (mkResponse 400 (ErrorBody "Title is required"), store))
  /\ (forall title, prop "title" (JObj body) = JStr title -> title <> EmptyString ->
        post_api_todos now_id now_created body store
        = (mkResponse 200 (TodoBody (mkTodo (toString now_id) title false now_created)),
           snd (createTodo now_id now_created title store))
        /\ getTodoById (toString now_id) (snd (createTodo now_id now_created title store))
           = Some (mkTodo (toString now_id) title false now_created)).
Proof.
  split.
  - apply post_api_todos_rejects.
  - intros title Hprop Hne.
    rewrite (post_api_todos_creates _ _ _ _ _ Hprop Hne).
    split; [done|]. apply getTodoById_createTodo.
Qed.

Lemma post_api_todos_spec_witness :
  post_api_todos 1700000000000 1700000000001 [("title", JNum 5)] (on_import 7 8 9)
  = (mkResponse 400 (ErrorBody "Title is required"), on_import 7 8 9)
  /\ fst (post_api_todos 1700000000000 1700000000001 [("title", JStr "Buy milk")]
            (on_import 7 8 9))
     = mkResponse 200 (TodoBody (mkTodo "1700000000000" "Buy milk" false 1700000000001)).
Proof.
  destruct (post_api_todos_spec 1700000000000 1700000000001 [("title", JNum 5)]
              (on_import 7 8 9)) as [Hreject _].
  destruct (post_api_todos_spec 1700000000000 1700000000001 [("title", JStr "Buy milk")]
              (on_import 7 8 9)) as [_ Hcreate].
  split.
  - apply Hreject. intros title. discriminate.
  - destruct (Hcreate "Buy milk" eq_refl) as [Hcall _]; [discriminate|].
    by rewrite Hcall.
Defined.

(** X21: the two transports do the same to the store: toggling or deleting
    an id through the REST route leaves the store the tool handler leaves,
    and so does creating a todo with a title of 1 to 200 characters. *)
Theorem transports_agree (now_id now_created : Z) (id title : string) (store : Store) :
  snd (post_api_todo_toggle id store) = snd (toggle_todo (JObj [("id", JStr id)]) store)
  /\ snd (delete_api_todo id store) = snd (delete_todo (JObj [("id", JStr id)]) store)
  /\ (valid_title title ->
      snd (post_api_todos now_id now_created [("title", JStr title)] store)
      = snd (add_todo now_id now_created (JObj [("title", JStr title)]) store)).
Proof.
  split; [|split].
  - unfold post_api_todo_toggle, toggle_todo.
    rewrite (id_schema_id [("id", JStr id)] id eq_refl).
    by destruct (toggleTodo id store) as [[u|] s'].
  - unfold delete_api_todo, delete_todo.
    rewrite (id_schema_id [("id", JStr id)] id eq_refl).
    by destruct (deleteTodo id store) as [[|] s'].
  - intros [Hlo Hhi].
    assert (title <> EmptyString) as Hne by (intros ->; simpl in Hlo; lia).
    rewrite (post_api_todos_creates now_id now_created [("title", JStr title)] title
               store eq_refl Hne).
    unfold add_todo. rewrite (add_schema_title [("title", JStr title)] title eq_refl).
    unfold z_title. rewrite decide_False by lia. by rewrite decide_False by lia.
Qed.

Lemma transports_agree_witness :
  snd (post_api_todos 1700000000000 1700000000001 [("title", JStr "Buy milk")]
         (on_import 7 8 9))
  = snd (add_todo 1700000000000 1700000000001 (JObj [("title", JStr "Buy milk")])
           (on_import 7 8 9)).
Proof.
  apply (transports_agree 1700000000000 1700000000001 "2" "Buy milk" (on_import 7 8 9)).
  unfold valid_title. simpl. lia.
Defined.

(** X22: the two transports differ on long titles: for a title of more than
    200 characters the add handler throws and leaves the store as it was,
    while [POST /api/todos] stores the todo under the new id. *)
Theorem long_title_transports (now_id now_created : Z) (title : string) (store : Store) :
  (200 < String.length title)%nat ->
  (exists issues,
     add_todo now_id now_created (JObj [("title", JStr title)]) store
     = (Throw issues, store))
  /\ exists todo store',
       post_api_todos now_id now_created [("title", JStr title)] store
       = (mkResponse 200 (TodoBody todo), store')
       /\ Todos.title todo = title
       /\ getTodoById (toString now_id) store' = Some todo.
Proof.
  intros Hlong. split.
  - unfold add_todo. rewrite (add_schema_title [("title", JStr title)] title eq_refl).
    unfold z_title. rewrite decide_False by lia. rewrite decide_True by lia.
    by eexists.
  - assert (title <> EmptyString) as Hne by (intros ->; simpl in Hlong; lia).
    rewrite (post_api_todos_creates now_id now_created [("title", JStr title)] title
               store eq_refl Hne).
    eexists _, _. split; [reflexivity|]. split; [done|].
    apply getTodoById_createTodo.
Qed.

Lemma long_title_transports_witness :
  let long := String.string_of_list_ascii (replicate 201 (Ascii.ascii_of_nat 97)) in
  (exists issues,
     add_todo 1700000000000 1700000000001 (JObj [("title", JStr long)]) (on_import 7 8 9)
     = (Throw issues, on_import 7 8 9))
  /\ exists todo store',
       post_api_todos 1700000000000 1700000000001 [("title", JStr long)] (on_import 7 8 9)
       = (mkResponse 200 (TodoBody todo), store')
       /\ Todos.title todo = long
       /\ getTodoById (toString 1700000000000) store' = Some todo.
Proof.
  intros long.
  apply (long_title_transports 1700000000000 1700000000001 long (on_import 7 8 9)).
  vm_compute. lia.
Defined.

(** * Further properties of the snapshot schema *)

Lemma todo_schema_inr path v t : todo_schema path v = inr t -> json_matches v t.
Proof.
  unfold todo_schema, json_matches. destruct v as [| |b|n|s|l|props]; try done.
  unfold z_string, z_boolean, z_number.
  destruct (prop "id" (JObj props)), (prop "title" (JObj props)),
    (prop "completed" (JObj props)), (prop "createdAt" (JObj props));
    simpl; try done.
  by intros [= <-].
Qed.

Lemma z_array_from_inr path i items l :
  z_array_from todo_schema path i items = inr l -> Forall2 json_matches items l.
Proof.
  revert i l. induction items as [|v items IH]; intros i l; simpl.
  - intros [= <-]. constructor.
  - destruct (todo_schema (path ++ [index i]) v) as [e|t] eqn:Ht;
      destruct (z_array_from todo_schema path (S i) items) as [e'|l'] eqn:Hl;
      simpl; try done.
    intros [= <-]. constructor; [by eapply todo_schema_inr | by eapply IH].
Qed.

(** X23: what the schema of the save handler returns is what the argument
    holds: the argument is an object whose [todos] is an array, with one
    element per parsed todo, in order, each carrying that todo's [id], [title],
    [completed] and [createdAt] with the types the schema asks for. *)
Theorem save_schema_sound (rawParams : jsval) (l : list Todo) :
  save_schema rawParams = inr l ->
  exists items,
    prop "todos" rawParams = JArr items /\ Forall2 json_matches items l.
Proof.
  unfold save_schema, z_array. destruct rawParams as [| |b|n|s|l0|props]; try done.
  destruct (prop "todos" (JObj props)) as [| |b|n|s|items|o]; try done.
  intros H. exists items. split; [done|]. by eapply z_array_from_inr.
Qed.

Lemma save_schema_sound_witness :
  exists items,
    prop "todos" (JObj [("todos", JArr [todo_json (mkTodo "9" "Unsaved" true 42)])])
    = JArr items
    /\ Forall2 json_matches items [mkTodo "9" "Unsaved" true 42].
Proof.
  apply (save_schema_sound
           (JObj [("todos", JArr [todo_json (mkTodo "9" "Unsaved" true 42)])])
           [mkTodo "9" "Unsaved" true 42]).
  reflexivity.
Defined.

(** * The listing after a creation and after a deletion *)

Lemma sort_insert_app_last b l a :
  createdAt b <= createdAt a ->
  sort_insert b (l ++ [a]) = sort_insert b l ++ [a].
Proof.
  intros Hle. induction l as [|x l IH]; simpl.
  - unfold compareFn. by rewrite decide_True by lia.
  - destruct (decide (compareFn b x <= 0)); [done|]. by rewrite IH.
Qed.

Lemma array_sort_app_last l a :
  Forall (fun t => createdAt t <= createdAt a) l ->
  array_sort (l ++ [a]) = array_sort l ++ [a].
Proof.
  induction 1 as [|x l Hx Hl IH]; simpl; [done|].
  by rewrite IH, sort_insert_app_last.
Qed.

(** X25: a todo created under a new id, at a time not before the creation
    time of any todo in the store, comes last in the listing, and the todos
    listed before keep their order. *)
Theorem getAllTodos_createTodo (now_id now_created : Z) (title : string)
    (store : Store) :
  getTodoById (toString now_id) store = None ->
  Forall (fun t => createdAt t <= now_created) (map_values store) ->
  let '(todo, store') := createTodo now_id now_created title store in
  getAllTodos store' = getAllTodos store ++ [todo].
Proof.
  intros Hfresh Hclock. unfold createTodo, getAllTodos, getTodoById in *.
  rewrite (map_set_absent _ _ _ Hfresh). unfold map_values in *.
  rewrite fmap_app. simpl. by apply array_sort_app_last.
Qed.

Lemma getAllTodos_createTodo_witness :
  let '(todo, store') :=
    createTodo 1700000000000 1700000000001 "Buy milk" (on_import 7 8 9) in
  getAllTodos store' = getAllTodos (on_import 7 8 9) ++ [todo].
Proof.
  apply (getAllTodos_createTodo 1700000000000 1700000000001 "Buy milk"
           (on_import 7 8 9)).
  - reflexivity.
  - repeat constructor; simpl; lia.
Defined.

Lemma sort_insert_filter_sorted (P : Todo -> Prop) `{!forall t, Decision (P t)} a l :
  StronglySorted by_createdAt l ->
  filter P (sort_insert a l)
  = if decide (P a) then sort_insert a (filter P l) else filter P l.
Proof.
  induction 1 as [|b l Hl IH Hb]; simpl.
  - rewrite filter_cons, filter_nil. by case_decide.
  - unfold compareFn. destruct (decide (createdAt a - createdAt b <= 0)) as [Hle|Hgt].
    + rewrite (filter_cons _ a), !(filter_cons _ b).
      destruct (decide (P a)) as [Ha|Ha]; [|done].
      destruct (decide (P b)) as [Hpb|Hpb]; simpl.
      * unfold compareFn. by rewrite decide_True by lia.
      * symmetry. apply sort_insert_same_time.
        apply Forall_forall. intros t [_ Ht]%list_elem_of_filter.
        pose proof (proj1 (Forall_forall _ _) Hb t Ht) as Hbt.
        unfold by_createdAt in Hbt. lia.
    + rewrite !(filter_cons _ b), IH.
      destruct (decide (P a)) as [Ha|Ha]; [|done].
      destruct (decide (P b)) as [Hpb|Hpb]; simpl; [|done].
      unfold compareFn. by rewrite decide_False by lia.
Qed.

Lemma array_sort_filter (P : Todo -> Prop) `{!forall t, Decision (P t)} l :
  array_sort (filter P l) = filter P (array_sort l).
Proof.
  induction l as [|a l IH]; simpl; [done|].
  rewrite sort_insert_filter_sorted by apply array_sort_sorted.
  rewrite filter_cons. destruct (decide (P a)); simpl; by rewrite IH.
Qed.

Lemma map_values_deleteTodo k store :
  store_ok store ->
  map_values (snd (deleteTodo k store))
  = filter (fun t => id t <> k) (map_values store).
Proof.
  intros [Hnd Hall]. unfold deleteTodo, map_values, map_keys in *.
  induction Hall as [|[k' v'] m Hkv Hm IH]; csimpl; [done|].
  apply NoDup_cons in Hnd as [Hnotin Hnd]. simpl in Hkv.
  rewrite filter_cons. destruct (decide (k' = k)) as [->|Hne]; simpl.
  - rewrite decide_False by (intros H; by apply H).
    symmetry. clear IH Hnd.
    induction Hm as [|[k0 v0] m0 Hk0 Hm0 IH0]; csimpl; [done|].
    apply not_elem_of_cons in Hnotin as [Hne0 Hnotin]. simpl in Hk0, Hne0.
    rewrite filter_cons, decide_True by congruence.
    f_equal. by apply IH0.
  - rewrite decide_True by (rewrite Hkv; congruence).
    specialize (IH Hnd). destruct (map_delete k m) as [b r]; csimpl in *.
    by rewrite IH.
Qed.

(** X26: in a well-formed store [deleteTodo] takes the todo of that id out of
    the listing and leaves the others in the order they had. *)
Theorem getAllTodos_deleteTodo (id : string) (store : Store) :
  store_ok store ->
  getAllTodos (snd (deleteTodo id store))
  = filter (fun t => Todos.id t <> id) (getAllTodos store).
Proof.
  intros Hok. unfold getAllTodos. rewrite map_values_deleteTodo by done.
  apply array_sort_filter.
Qed.

Lemma getAllTodos_deleteTodo_witness :
  getAllTodos (snd (deleteTodo "1" (on_import 7 8 9)))
  = [ mkTodo "2" "Build a ChatGPT app" false 8; mkTodo "3" "Deploy to Vercel" false 9 ].
Proof.
  rewrite (getAllTodos_deleteTodo "1" (on_import 7 8 9) (on_import_store_ok 7 8 9)).
  reflexivity.
Defined.

Lemma deleteTodo_result_witness :
  fst (deleteTodo "2" (on_import 7 8 9)) = true
  /\ deleteTodo "4" (on_import 7 8 9) = (false, on_import 7 8 9).
Proof.
  destruct (deleteTodo_result "2" (on_import 7 8 9)) as [[_ Hpresent] _].
  destruct (deleteTodo_result "4" (on_import 7 8 9)) as [_ Habsent].
  split; [apply Hpresent; by eexists | by apply Habsent].
Defined.

Lemma add_todo_returns_iff_witness :
  exists result store',
    add_todo 1700000000000 1700000000001 (JObj [("title", JStr "Buy milk")])
      (on_import 7 8 9)
    = (Return result, store').
Proof.
  apply (add_todo_returns_iff 1700000000000 1700000000001
           (JObj [("title", JStr "Buy milk")]) (on_import 7 8 9)).
  exists "Buy milk". split; [reflexivity|]. unfold valid_title. simpl. lia.
Defined.

(** * The PUT route and partial updates *)

Section JsMapFmap.
Context {V W : Type} (f : V -> W).
Implicit Types (m : list (string * V)) (k : string) (v : V).

Lemma map_get_fmap k m :
  map_get k ((fun e => (fst e, f (snd e))) <$> m) = f <$> map_get k m.
Proof.
  induction m as [|[k' v'] m IH]; csimpl; [done|].
  by destruct (decide (k' = k)).
Qed.

Lemma map_set_fmap k v m :
  map_set k (f v) ((fun e => (fst e, f (snd e))) <$> m)
  = (fun e => (fst e, f (snd e))) <$> map_set k v m.
Proof.
  induction m as [|[k' v'] m IH]; csimpl; [done|].
  destruct (decide (k' = k)); csimpl; [done|]. by rewrite IH.
Qed.
End JsMapFmap.

Lemma spread_of_todo todo updates :
  Runtime.spread (Runtime.of_todo todo) (Runtime.of_updates updates)
  = Runtime.of_todo (spread todo updates).
Proof.
  unfold Runtime.spread, Runtime.of_todo, Runtime.of_updates, spread. simpl.
  by destruct (u_title updates), (u_completed updates).
Qed.

(** On todos and update objects of the declared types the running program
    does what [Todos.updateTodo] says. *)
Lemma updateTodo_of_store id updates store :
  Runtime.updateTodo id (Runtime.of_updates updates) (Runtime.of_store store)
  = (Runtime.of_todo <$> fst (updateTodo id updates store),
     Runtime.of_store (snd (updateTodo id updates store))).
Proof.
  unfold Runtime.updateTodo, updateTodo, Runtime.of_store.
  rewrite map_get_fmap. destruct (map_get id store) as [todo|]; simpl; [|done].
  by rewrite spread_of_todo, map_set_fmap.
Qed.

(** C3, at the failing input: a PUT on the first sample todo whose body holds
    [completed] only.  The route passes [{ title: undefined, completed: true }],
    the spread overwrites the title, and the stored todo has lost it: the
    omitted field did not keep its prior value. *)
Theorem put_omitted_title_lost :
  let store := Runtime.of_store (on_import 1700000000000 1700000000000 1700000000000) in
  let '(reply, store') := Runtime.put_api_todo "1" [("completed", JBool true)] store in
  map_get "1" store
  = Some (Runtime.mkObj "1" (JStr "Learn about MCP") (JBool false) 1700000000000)
  /\ map_get "1" store'
     = Some (Runtime.mkObj "1" JUndefined (JBool true) 1700000000000)
  /\ reply
     = {| code := 200;
          json := JObj [("id", JStr "1"); ("completed", JBool true);
                        ("createdAt", JNum 1700000000000)] |}
  /\ Runtime.updateTodo "1" (Runtime.mkPatch (Some JUndefined) None) store
     = (Some (Runtime.mkObj "1" JUndefined (JBool false) 1700000000000),
        map_set "1" (Runtime.mkObj "1" JUndefined (JBool false) 1700000000000) store).
Proof. vm_compute. repeat split. Qed.

(** X27: [PUT /api/todos/:id] answers 404 and leaves the store as it was for
    an absent id.  For a present id it answers 200 and stores, under the same
    key, the record whose [title] and [completed] are what the body holds
    under these names, [undefined] for a name the body does not hold; [id],
    [createdAt] and every other entry stay as they were. *)
Theorem put_api_todo_spec (id : string) (body : list (string * jsval))
    (store : Runtime.ObjStore) :
  (map_get id store = None ->
     Runtime.put_api_todo id body store = (todo_not_found, store))
  /\ (forall todo, map_get id store = Some todo ->
      let updated :=
        Runtime.mkObj (Runtime.o_id todo)
          (default JUndefined (map_get "title" body))
          (default JUndefined (map_get "completed" body))
          (Runtime.o_createdAt todo) in
      exists store',
        Runtime.put_api_todo id body store
        = ({| code := 200; json := Runtime.obj_json updated |}, store')
        /\ map_get id store' = Some updated
        /\ map_keys store' = map_keys store
        /\ (forall other, other <> id -> map_get other store' = map_get other store)).
Proof.
  unfold Runtime.put_api_todo, Runtime.updateTodo. split.
  - by intros ->.
  - intros todo Hget. rewrite Hget. simpl. eexists. split; [reflexivity|].
    split; [apply map_get_set_eq|]. split.
    + apply map_keys_set_present. by rewrite Hget.
    + intros other Hne. by apply map_get_set_ne.
Qed.

Lemma put_api_todo_spec_witness :
  Runtime.put_api_todo "4" [("title", JStr "x")] (Runtime.of_store (on_import 7 8 9))
  = (todo_not_found, Runtime.of_store (on_import 7 8 9))
  /\ exists store',
       Runtime.put_api_todo "2" [("title", JStr "Ship it")]
         (Runtime.of_store (on_import 7 8 9))
       = ({| code := 200;
             json := JObj [("id", JStr "2"); ("title", JStr "Ship it");
                           ("createdAt", JNum 8)] |}, store')
       /\ map_get "2" store' = Some (Runtime.mkObj "2" (JStr "Ship it") JUndefined 8).
Proof.
  destruct (put_api_todo_spec "4" [("title", JStr "x")]
              (Runtime.of_store (on_import 7 8 9))) as [Habsent _].
  destruct (put_api_todo_spec "2" [("title", JStr "Ship it")]
              (Runtime.of_store (on_import 7 8 9))) as [_ Hpresent].
  split; [by apply Habsent|].
  destruct (Hpresent (Runtime.of_todo (mkTodo "2" "Build a ChatGPT app" false 8)) eq_refl)
    as (store' & Hcall & Hget & _).
  by exists store'.
Defined.
